(** * DataForm: the View <-> Form value codec of grommet's [DataForm.js]

    A shallow embedding of [src/js/components/Data/DataForm.js]: the codec
    ([viewToFormValue], [formValueToView]), the normaliser ([clearEmpty],
    [resetPage], [normalizeValue]), [transformTouched] and the state held by
    the [DataForm] component, followed by the properties of that code.

    Modelling conventions.
    - A JavaScript value is a [JsVal]: [undefined], [null], booleans, numbers,
      strings, arrays and plain objects.  Numbers are integers ([Z]); strings
      are [string]s.
    - A plain object is the list of its own properties in enumeration order
      ([Obj]).  Reading takes the first entry of a key, writing replaces that
      entry or appends a new one, [delete] removes the key.
    - A plain object inherits the members of [Object.prototype].  Where the
      code reads [o[k]] with a key that it fixes itself ([_view], [min],
      [properties], ...) or that it takes from [Object.keys(o)], no inherited
      member can answer and the read is [get].  Where the key comes from
      elsewhere (the [some] test of [normalizeValue], [transformTouched]),
      the read is [read], which answers with the inherited member when the
      object has no own property of that name.
    - Code that mutates an object in place is written as a function returning
      the object's new content.
    - Code that can throw returns a [result].
    - Keys are enumerated in the order of the list.  (JavaScript puts keys
      that are array indices first; no function here depends on the order
      in which it visits keys, and the only place where the order of keys
      shows is [JSON.stringify] on a value handed in by the caller.) *)

From Stdlib Require Import List String Ascii ZArith Bool Lia DecimalString.
Import ListNotations.
Local Open Scope string_scope.
Local Open Scope Z_scope.

Set Implicit Arguments.

(* ================================================================= *)
(** ** JavaScript values *)

Unset Elimination Schemes.
Inductive JsVal : Type :=
| JUndefined : JsVal
| JNull : JsVal
| JBool : bool -> JsVal
| JNum : Z -> JsVal
| JStr : string -> JsVal
| JArr : list JsVal -> JsVal
| JObj : list (string * JsVal) -> JsVal.
Set Elimination Schemes.

(** A plain object: own properties, in enumeration order. *)
Definition Obj : Type := list (string * JsVal).

(** Induction over values that reaches the elements of arrays and the
    property values of objects. *)
Section JsVal_induction.
Variable P : JsVal -> Prop.
Hypothesis Hundef : P JUndefined.
Hypothesis Hnull : P JNull.
Hypothesis Hbool : forall b, P (JBool b).
Hypothesis Hnum : forall n, P (JNum n).
Hypothesis Hstr : forall s, P (JStr s).
Hypothesis Harr : forall l, Forall P l -> P (JArr l).
Hypothesis Hobj : forall o : Obj, Forall (fun kv => P (snd kv)) o -> P (JObj o).

Fixpoint JsVal_ind (v : JsVal) : P v :=
  match v with
  | JUndefined => Hundef
  | JNull => Hnull
  | JBool b => Hbool b
  | JNum n => Hnum n
  | JStr s => Hstr s
  | JArr l =>
      Harr ((fix go (l : list JsVal) : Forall P l :=
               match l with
               | [] => Forall_nil _
               | x :: r => Forall_cons _ (JsVal_ind x) (go r)
               end) l)
  | JObj o =>
      Hobj ((fix go (o : Obj) : Forall (fun kv => P (snd kv)) o :=
               match o with
               | [] => Forall_nil _
               | kv :: r => Forall_cons _ (JsVal_ind (snd kv)) (go r)
               end) o)
  end.
End JsVal_induction.

(** Structural comparison of two values, as a boolean. *)
Fixpoint JsVal_eqb (a b : JsVal) {struct a} : bool :=
  match a, b with
  | JUndefined, JUndefined => true
  | JNull, JNull => true
  | JBool x, JBool y => Bool.eqb x y
  | JNum x, JNum y => Z.eqb x y
  | JStr x, JStr y => String.eqb x y
  | JArr xs, JArr ys =>
      (fix go (xs ys : list JsVal) {struct xs} : bool :=
         match xs, ys with
         | [], [] => true
         | x :: xs', y :: ys' => JsVal_eqb x y && go xs' ys'
         | _, _ => false
         end) xs ys
  | JObj xs, JObj ys =>
      (fix go (xs ys : Obj) {struct xs} : bool :=
         match xs, ys with
         | [], [] => true
         | (k, x) :: xs', (k', y) :: ys' =>
             String.eqb k k' && JsVal_eqb x y && go xs' ys'
         | _, _ => false
         end) xs ys
  | _, _ => false
  end.

(** *** Truthiness, [typeof], strict equality *)

(** ToBoolean: [undefined], [null], [false], [0] and the empty string are
    falsy, everything else (arrays and objects included) is truthy. *)
Definition truthy (v : JsVal) : bool :=
  match v with
  | JUndefined | JNull => false
  | JBool b => b
  | JNum n => negb (n =? 0)
  | JStr s => negb (String.eqb s "")
  | JArr _ | JObj _ => true
  end.

(** [typeof v === 'number'] *)
Definition is_number (v : JsVal) : bool :=
  match v with JNum _ => true | _ => false end.

(** [a === b].  Primitives compare by value.  Arrays and objects compare by
    identity, which the value model does not carry: two composite operands
    are taken to be distinct objects. *)
Definition strict_eq (a b : JsVal) : bool :=
  match a, b with
  | JUndefined, JUndefined => true
  | JNull, JNull => true
  | JBool x, JBool y => Bool.eqb x y
  | JNum x, JNum y => Z.eqb x y
  | JStr x, JStr y => String.eqb x y
  | _, _ => false
  end.

(** [Array.isArray(v) && v.length === 0] *)
Definition is_empty_array (v : JsVal) : bool :=
  match v with JArr [] => true | _ => false end.

(* ================================================================= *)
(** ** Objects as property lists *)

(** Own property lookup: [None] when the key is absent. *)
Fixpoint lookup (o : Obj) (k : string) : option JsVal :=
  match o with
  | [] => None
  | (k', v) :: r => if String.eqb k k' then Some v else lookup r k
  end.

(** [o[k]] on an object. *)
Definition get (o : Obj) (k : string) : JsVal :=
  match lookup o k with Some v => v | None => JUndefined end.

(** [o[k] = v] *)
Fixpoint set (o : Obj) (k : string) (v : JsVal) : Obj :=
  match o with
  | [] => [(k, v)]
  | (k', v') :: r =>
      if String.eqb k k' then (k, v) :: r else (k', v') :: set r k v
  end.

(** [delete o[k]] *)
Fixpoint delete (o : Obj) (k : string) : Obj :=
  match o with
  | [] => []
  | (k', v') :: r =>
      if String.eqb k k' then delete r k else (k', v') :: delete r k
  end.

(** [Object.keys(o)] *)
Definition keys (o : Obj) : list string := map fst o.

(** The names of the members of [Object.prototype], which every plain
    object inherits. *)
Definition object_prototype_members : list string :=
  [ "constructor"; "__defineGetter__"; "__defineSetter__"; "hasOwnProperty";
    "__lookupGetter__"; "__lookupSetter__"; "isPrototypeOf";
    "propertyIsEnumerable"; "toString"; "valueOf"; "__proto__";
    "toLocaleString" ].

Definition is_inherited (k : string) : bool :=
  existsb (String.eqb k) object_prototype_members.

(** What a read [o[k]] on a plain object gives: a value, or the member of
    [Object.prototype] of that name (a built-in function, or for
    [__proto__] the object [Object.prototype] itself). *)
Inductive Member : Type :=
| Value : JsVal -> Member
| Inherited : string -> Member.

(** [o[k]] on a plain object, through the prototype chain: the own
    property, else the inherited member, else [undefined]. *)
Definition read (o : Obj) (k : string) : Member :=
  match lookup o k with
  | Some v => Value v
  | None => if is_inherited k then Inherited k else Value JUndefined
  end.

(** ToBoolean of what was read: functions and objects are truthy. *)
Definition truthy_member (m : Member) : bool :=
  match m with
  | Value v => truthy v
  | Inherited _ => true
  end.

(** [{ ...a, ...b }] for two objects: the properties of [b] written over a
    copy of [a]. *)
Definition assign (a b : Obj) : Obj :=
  fold_left (fun acc kv => set acc (fst kv) (snd kv)) b a.

(** Decimal rendering of an array index. *)
Definition index_key (i : nat) : string :=
  NilZero.string_of_uint (Nat.to_uint i).

Fixpoint indexed (A : Type) (i : nat) (l : list A) : list (string * A) :=
  match l with
  | [] => []
  | x :: r => (index_key i, x) :: indexed (S i) r
  end.

Fixpoint chars (s : string) : list JsVal :=
  match s with
  | EmptyString => []
  | String c r => JStr (String c EmptyString) :: chars r
  end.

(** The own enumerable properties that [{ ...v }] copies: those of an
    object, the indexed elements of an array, the indexed characters of a
    string, nothing for any other value. *)
Definition spread (v : JsVal) : Obj :=
  match v with
  | JObj o => o
  | JArr l => indexed 0 l
  | JStr s => indexed 0 (chars s)
  | _ => []
  end.

(** Own property read [v[k]] on a value that is neither [null] nor
    [undefined]: a property of an object, an element or the length of an
    array, a character or the length of a string. *)
Definition own_get (v : JsVal) (k : string) : JsVal :=
  match v with
  | JObj o => get o k
  | JArr l =>
      if String.eqb k "length" then JNum (Z.of_nat (List.length l))
      else get (indexed 0 l) k
  | JStr s =>
      if String.eqb k "length" then JNum (Z.of_nat (String.length s))
      else get (indexed 0 (chars s)) k
  | _ => JUndefined
  end.

(** [a || b] *)
Definition js_or (a b : JsVal) : JsVal := if truthy a then a else b.

(* ================================================================= *)
(** ** Exceptions *)

Inductive exn : Type := TypeError | SyntaxError.

Inductive result (A : Type) : Type :=
| Ok : A -> result A
| Throw : exn -> result A.
Arguments Ok {A} _.
Arguments Throw {A} _.

Definition bind (A B : Type) (m : result A) (f : A -> result B) : result B :=
  match m with
  | Ok a => f a
  | Throw e => Throw e
  end.

Notation "x <- m ;; k" := (bind m (fun x => k))
  (at level 61, m at next level, right associativity).

(** [v[k]]: a [TypeError] on [null] and [undefined]. *)
Definition js_get (v : JsVal) (k : string) : result JsVal :=
  match v with
  | JUndefined | JNull => Throw TypeError
  | _ => Ok (own_get v k)
  end.

(** A loop whose body can throw. *)
Fixpoint foldM (A B : Type) (f : A -> B -> result A) (l : list B) (a : A)
  : result A :=
  match l with
  | [] => Ok a
  | b :: r => a' <- f a b ;; foldM f r a'
  end.

(* ================================================================= *)
(** ** JSON.stringify and JSON.parse

    The text that [JSON.stringify] produces is not needed, only whether two
    texts are the same and what [JSON.parse] reads back.  A text is therefore
    represented by the tree it denotes: [JSON_stringify v] is [None] when the
    call returns [undefined] and otherwise the value with what serialisation
    drops or rewrites already dropped or rewritten (an [undefined] array
    element becomes [null], a property whose value is [undefined] is left
    out).  Two values have the same text exactly when they have the same
    tree. *)

Fixpoint JSON_stringify (v : JsVal) : option JsVal :=
  match v with
  | JUndefined => None
  | JArr l =>
      Some (JArr (map (fun x => match JSON_stringify x with
                                | Some t => t
                                | None => JNull
                                end) l))
  | JObj o =>
      Some (JObj ((fix props (o : Obj) : Obj :=
                     match o with
                     | [] => []
                     | (k, x) :: r =>
                         match JSON_stringify x with
                         | Some t => (k, t) :: props r
                         | None => props r
                         end
                     end) o))
  | _ => Some v
  end.

(** The properties that the serialisation of an object keeps. *)
Fixpoint JSON_props (o : Obj) : Obj :=
  match o with
  | [] => []
  | (k, x) :: r =>
      match JSON_stringify x with
      | Some t => (k, t) :: JSON_props r
      | None => JSON_props r
      end
  end.

(** [JSON.parse(text)]: [JSON.parse(undefined)] reads the text "undefined",
    which is a [SyntaxError]. *)
Definition JSON_parse (text : option JsVal) : result JsVal :=
  match text with
  | Some t => Ok t
  | None => Throw SyntaxError
  end.


(** [JSON.stringify] of what a read gave: [undefined] for a function, the
    text of the empty object for [Object.prototype], which has no
    enumerable property. *)
Definition JSON_stringify_member (m : Member) : option JsVal :=
  match m with
  | Value v => JSON_stringify v
  | Inherited k => if String.eqb k "__proto__" then Some (JObj []) else None
  end.

(** [JSON.stringify(m) !== JSON.stringify(b)] for what a read gave. *)
Definition JSON_member_text_differs (m : Member) (b : JsVal) : bool :=
  match JSON_stringify_member m, JSON_stringify b with
  | Some x, Some y => negb (JsVal_eqb x y)
  | None, None => false
  | _, _ => true
  end.

(* ================================================================= *)
(** ** The codec *)

Definition formSearchKey := "_search".
Definition formSortKey := "_sort".
Definition formRangeKey := "_range".
Definition formStepKey := "_step".
Definition formPageKey := "_page".
Definition formColumnsKey := "_columns".
Definition formViewNameKey := "_view".

Definition viewFormKeyMap : list (string * string) :=
  [ ("search", formSearchKey);
    ("sort", formSortKey);
    ("step", formStepKey);
    ("page", formPageKey);
    ("columns", formColumnsKey);
    ("view", formViewNameKey) ].

(** A view is an object; where the code may be handed [undefined] instead
    (the [view] of the context, the outcome of [views.find]) the type is
    [option View].  The collection [views] is an array of views, or
    [undefined] ([None]) when the context provides none. *)
Definition View : Type := Obj.

(** [view?.[key]] *)
Definition view_get (view : option View) (key : string) : JsVal :=
  match view with
  | Some o => get o key
  | None => JUndefined
  end.

(** One step of the range loop of [viewToFormValue]. *)
Definition encode_range (result : Obj) (key : string) : Obj :=
  if is_number (own_get (get result key) "min")
     || is_number (own_get (get result key) "max")
  then set result key
         (JObj [(formRangeKey,
                 JArr [own_get (get result key) "min";
                       own_get (get result key) "max"])])
  else result.

(** One step of the reserved-key loop of [viewToFormValue]. *)
Definition encode_key (view : option View) (result : Obj)
           (km : string * string) : Obj :=
  if truthy (view_get view (fst km))
  then set result (snd km) (view_get view (fst km))
  else result.

(** [viewToFormValue(view)]: from the external view format to the internal
    Form value format. *)
Definition viewToFormValue (view : option View) : Obj :=
  let result := spread (js_or (view_get view "properties") (JObj [])) in
  let result := fold_left encode_range (keys result) result in
  let result := fold_left (encode_key view) viewFormKeyMap result in
  let result :=
    if truthy (get result formSearchKey) then result
    else set result formSearchKey (JStr "") in
  let result :=
    if truthy (view_get view "sort")
    then set result formSortKey (view_get view "sort") else result in
  let result :=
    if truthy (view_get view "name")
    then set result formViewNameKey (view_get view "name") else result in
  let result :=
    if truthy (view_get view "columns")
    then set result formColumnsKey (view_get view "columns") else result in
  result.

(** [views.find((v) => v.name === name)]: a [TypeError] when [views] is
    [undefined], [None] (that is [undefined]) when no view matches. *)
Definition find_view (views : option (list View)) (name : JsVal)
  : result (option View) :=
  match views with
  | None => Throw TypeError
  | Some l => Ok (find (fun v => strict_eq (get v "name") name) l)
  end.

(** The outcome of [find] as a value. *)
Definition found_value (found : option View) : JsVal :=
  match found with
  | Some o => JObj o
  | None => JUndefined
  end.

(** [JSON.parse(JSON.stringify(found))] for the outcome of [find_view].
    The copy of a view is an object (see [clone_view_found]); the last
    branch is never taken. *)
Definition clone_view (found : option View) : result Obj :=
  copy <- JSON_parse (JSON_stringify (found_value found)) ;;
  match copy with
  | JObj o => Ok o
  | _ => Throw TypeError
  end.

(** One step of the reserved-key loop of [formValueToView], on the pair
    ([result], [valueCopy]). *)
Definition decode_key (st : Obj * Obj) (km : string * string) : Obj * Obj :=
  let (result, valueCopy) := st in
  let result :=
    if truthy (get valueCopy (snd km))
    then set result (fst km) (get valueCopy (snd km))
    else result in
  (result, delete valueCopy (snd km)).

(** One step of the range loop of [formValueToView], on
    [result.properties]. *)
Definition decode_range (properties : Obj) (key : string) : result Obj :=
  r <- js_get (get properties key) formRangeKey ;;
  if truthy r
  then Ok (set properties key
             (JObj [("min", own_get r "0"); ("max", own_get r "1")]))
  else Ok properties.

(** [formValueToView(value, views)]: from the internal Form value format to
    the external view format. *)
Definition formValueToView (value : Obj) (views : option (list View))
  : result View :=
  result <-
    (if truthy (get value formViewNameKey)
     then found <- find_view views (get value formViewNameKey) ;;
          clone_view found
     else Ok []) ;;
  let valueCopy := value in
  let (result, valueCopy) :=
    fold_left decode_key viewFormKeyMap (result, valueCopy) in
  let properties :=
    assign (spread (js_or (get result "properties") (JObj []))) valueCopy in
  properties <- foldM decode_range (keys properties) properties ;;
  Ok (set result "properties" (JObj properties)).

(* ================================================================= *)
(** ** The normaliser *)

(** One step of the loop of [clearEmpty]. *)
Definition clear_key (value : Obj) (k : string) : Obj :=
  if is_empty_array (get value k) then delete value k else value.

(** [clearEmpty(formValue)]: remove the keys whose value is an empty array.
    The argument is changed in place and returned; the result is its new
    content. *)
Definition clearEmpty (formValue : Obj) : Obj :=
  fold_left clear_key (keys formValue) formValue.

(** The predicate of the [some] call of [normalizeValue].  The key [k] is
    one of [Object.keys(viewValue)]; [result[k]] is read through the
    prototype chain. *)
Definition diverges (result viewValue : Obj) (k : string) : bool :=
  truthy (get viewValue k)
  && truthy_member (read result k)
  && JSON_member_text_differs (read result k) (get viewValue k).

(** [normalizeValue(nextValue, prevValue, views)], shared by [onSubmit] and
    [onChange]. *)
Definition normalizeValue (nextValue prevValue : Obj)
           (views : option (list View)) : result Obj :=
  if truthy (get nextValue formViewNameKey)
     && negb (strict_eq (get nextValue formViewNameKey)
                        (get prevValue formViewNameKey))
  then
    found <- find_view views (get nextValue formViewNameKey) ;;
    Ok (viewToFormValue found)
  else
    let result := clearEmpty nextValue in
    if truthy (get result formViewNameKey)
    then
      view <- find_view views (get result formViewNameKey) ;;
      let viewValue := clearEmpty (viewToFormValue view) in
      if existsb (diverges result viewValue) (keys viewValue)
      then Ok (delete result formViewNameKey)
      else Ok result
    else Ok result.

(* ================================================================= *)
(** ** The touched mapper *)

(** [key.split('.')] *)
Fixpoint split_dot (s : string) : list string :=
  match s with
  | EmptyString => [""]
  | String c r =>
      if Ascii.eqb c "." then "" :: split_dot r
      else match split_dot r with
           | seg :: rest => String c seg :: rest
           | [] => [String c ""]
           end
  end.

(** [parts[i]] as a value: [undefined] past the end. *)
Definition part (parts : list string) (i : nat) : JsVal :=
  match nth_error parts i with
  | Some p => JStr p
  | None => JUndefined
  end.

(** The property key that a value used as a key denotes, for the values
    [part] gives. *)
Definition key_of (v : JsVal) : string :=
  match v with
  | JStr p => p
  | _ => "undefined"
  end.

(** The object that [transformTouched] builds: its own properties, each
    holding what a read gave. *)
Definition Reported : Type := list (string * Member).

Fixpoint reported (r : Reported) (k : string) : option Member :=
  match r with
  | [] => None
  | (k', m) :: rest => if String.eqb k k' then Some m else reported rest k
  end.

Fixpoint report_set (r : Reported) (k : string) (m : Member) : Reported :=
  match r with
  | [] => [(k, m)]
  | (k', m') :: rest =>
      if String.eqb k k' then (k, m) :: rest
      else (k', m') :: report_set rest k m
  end.

(** [result[key] = m] on the object being built.  An own property is
    written or created, except that with no own property [__proto__] the
    assignment [result['__proto__'] = m] runs the setter inherited from
    [Object.prototype] and creates no property (the prototype it may give
    to [result] is not part of [Reported]). *)
Definition report (r : Reported) (key : string) (m : Member) : Reported :=
  match reported r key with
  | Some _ => report_set r key m
  | None => if String.eqb key "__proto__" then r else report_set r key m
  end.

(** The value [transformTouched] reports for one touched path. *)
Definition touched_value (value : Obj) (key : string) : Member :=
  let parts := split_dot key in
  if strict_eq (part parts 1) (JStr formRangeKey)
  then read value (key_of (part parts 0))
  else read value key.

(** [transformTouched(touched, value)] *)
Definition transformTouched (touched value : Obj) : Reported :=
  fold_left (fun result key => report result key (touched_value value key))
            (keys touched) [].

(* ================================================================= *)
(** ** Coercions, the page reset and the component *)

(** [ToString] of a value. *)
Fixpoint ToString (v : JsVal) : string :=
  match v with
  | JUndefined => "undefined"
  | JNull => "null"
  | JBool true => "true"
  | JBool false => "false"
  | JNum n => NilZero.string_of_int (Z.to_int n)
  | JStr s => s
  | JArr l =>
      String.concat ","
        (map (fun x => match x with
                       | JUndefined | JNull => ""
                       | _ => ToString x
                       end) l)
  | JObj _ => "[object Object]"
  end.

Section Coercions.

(** The conversion of a string to a number (the StringToNumber operation
    of the language, [None] standing for NaN) belongs to the JavaScript
    runtime, not to this file: it is a parameter. *)
Variable StringToNumber : string -> option Z.

(** [ToNumber]; [None] stands for NaN.  Arrays and objects are first
    converted to a string. *)
Definition ToNumber (v : JsVal) : option Z :=
  match v with
  | JUndefined => None
  | JNull => Some 0
  | JBool b => Some (if b then 1 else 0)
  | JNum n => Some n
  | JStr _ | JArr _ | JObj _ => StringToNumber (ToString v)
  end.

(** [v > n] for a number [n]; a comparison with NaN is false. *)
Definition js_gt (v : JsVal) (n : Z) : bool :=
  match ToNumber v with
  | Some m => n <? m
  | None => false
  end.

(** [resetPage(nextFormValue, prevFormValue)]: the first argument is
    changed in place; the result is its new content. *)
Definition resetPage (nextFormValue prevFormValue : Obj) : Obj :=
  if truthy (get prevFormValue formPageKey)
     && js_gt (get prevFormValue formPageKey) 1
  then set nextFormValue formPageKey (JNum 1)
  else nextFormValue.

(** *** The [DataForm] component

    What the component reads from its context and props. *)
Record Props : Type := {
  view : option View;
  views : option (list View);
  updateOn : string;
  onTouched : bool;  (* is an [onTouched] callback given *)
  onDone : bool      (* is an [onDone] callback given *)
}.

(** The two [useState] cells. *)
Record State : Type := {
  formValue : Obj;
  changed : JsVal
}.

(** Calls made to the callbacks. *)
Inductive Call : Type :=
| CallOnTouched : Reported -> Call
| CallOnView : View -> Call
| CallOnDone : Call.

(** What a handler leaves behind: the state after the [set...] calls it
    made, the callbacks it called, and the exception that ended it, if
    any. *)
Record Outcome : Type := {
  state : State;
  calls : list Call;
  thrown : option exn
}.

(** First render: [useState(viewToFormValue(view))] and [useState()]. *)
Definition mount (p : Props) : State :=
  {| formValue := viewToFormValue (view p); changed := JUndefined |}.

Definition onSubmit (p : Props) (s : State) (value touched : Obj)
  : Outcome :=
  match normalizeValue value (formValue s) (views p) with
  | Throw e => {| state := s; calls := []; thrown := Some e |}
  | Ok nextValue =>
      let nextValue := resetPage nextValue (formValue s) in
      let s' := {| formValue := nextValue; changed := JBool false |} in
      let c1 :=
        if onTouched p
        then [CallOnTouched (transformTouched touched nextValue)]
        else [] in
      match formValueToView nextValue (views p) with
      | Throw e => {| state := s'; calls := c1; thrown := Some e |}
      | Ok v =>
          {| state := s';
             calls := c1 ++ [CallOnView v]
                         ++ (if onDone p then [CallOnDone] else []);
             thrown := None |}
      end
  end.

Definition onChange (p : Props) (s : State) (value touched : Obj)
  : Outcome :=
  match normalizeValue value (formValue s) (views p) with
  | Throw e => {| state := s; calls := []; thrown := Some e |}
  | Ok nextValue =>
      let nextValue := resetPage nextValue (formValue s) in
      let s' := {| formValue := nextValue; changed := JBool true |} in
      if String.eqb (updateOn p) "change"
      then
        let c1 :=
          if onTouched p
          then [CallOnTouched (transformTouched touched nextValue)]
          else [] in
        match formValueToView nextValue (views p) with
        | Throw e => {| state := s'; calls := c1; thrown := Some e |}
        | Ok v =>
            {| state := s'; calls := c1 ++ [CallOnView v];
               thrown := None |}
        end
      else {| state := s'; calls := []; thrown := None |}
  end.

Definition onReset (p : Props) (s : State) : State :=
  {| formValue := viewToFormValue (view p); changed := JBool false |}.

(** The effect that runs when [view] has changed, and after the first
    render: [setFormValue(viewToFormValue(view))]. *)
Definition viewEffect (p : Props) (s : State) : State :=
  {| formValue := viewToFormValue (view p); changed := changed s |}.

(** The reset button is hidden when [!changed]. *)
Definition dirty (s : State) : bool := truthy (changed s).

End Coercions.

(* ================================================================= *)
(** ** Vocabulary of the statements *)

(** A value that JSON represents as it is: no [undefined] anywhere in it. *)
Fixpoint json_clean (v : JsVal) : bool :=
  match v with
  | JUndefined => false
  | JArr l => forallb json_clean l
  | JObj o => forallb (fun kv => json_clean (snd kv)) o
  | _ => true
  end.

Inductive opt_rel (A : Type) (R : A -> A -> Prop)
  : option A -> option A -> Prop :=
| opt_rel_None : opt_rel R None None
| opt_rel_Some : forall a b, R a b -> opt_rel R (Some a) (Some b).

(** Structural equality of two values: the same value, or arrays with
    equal elements in the same order, or objects with the same keys and
    equal values under each key, in whatever order the keys come. *)
#[warnings="-register-all"]
Inductive js_equiv : JsVal -> JsVal -> Prop :=
| js_equiv_same : forall v, js_equiv v v
| js_equiv_arr : forall xs ys,
    Forall2 js_equiv xs ys -> js_equiv (JArr xs) (JArr ys)
| js_equiv_obj : forall xs ys : Obj,
    (forall k, opt_rel js_equiv (lookup xs k) (lookup ys k)) ->
    js_equiv (JObj xs) (JObj ys).

(** The test of the range loop of [viewToFormValue] on a property value,
    and what the loop puts in its place. *)
Definition is_range (p : JsVal) : bool :=
  is_number (own_get p "min") || is_number (own_get p "max").

Definition encode_value (p : JsVal) : JsVal :=
  if is_range p
  then JObj [(formRangeKey, JArr [own_get p "min"; own_get p "max"])]
  else p.

(** What the range loop of [formValueToView] leaves for a property value
    that is neither [null] nor [undefined]. *)
Definition decode_value (p : JsVal) : JsVal :=
  if truthy (own_get p formRangeKey)
  then JObj [("min", own_get (own_get p formRangeKey) "0");
             ("max", own_get (own_get p formRangeKey) "1")]
  else p.

(** The encoding that the edit branch of [normalizeValue] compares with:
    that of the view named by the pruned [next], pruned as well. *)
Definition named_encoding (next : Obj) (l : list View) : Obj :=
  clearEmpty
    (viewToFormValue
       (find (fun v => strict_eq (get v "name")
                                 (get (clearEmpty next) formViewNameKey)) l)).

(** The keys of a form value that stand for fields of the view. *)
Definition form_keys : list string := map snd viewFormKeyMap.

(** The fields of a view that has no name. *)
Definition unnamed_fields : list string :=
  ["properties"; "search"; "sort"; "step"; "page"; "columns"].

(** A property value that is not a range: neither [null] nor [undefined],
    without a numeric [min] or [max] and without a [_range] member. *)
Definition plain_property (p : JsVal) : Prop :=
  is_range p = false
  /\ p <> JNull /\ p <> JUndefined
  /\ truthy (own_get p formRangeKey) = false.

(** A range: an object with a [min] and a [max], one of them at least a
    number, and nothing else. *)
Definition range_property (p : JsVal) : Prop :=
  exists o : Obj,
    p = JObj o
    /\ is_range p = true
    /\ lookup o "min" <> None /\ lookup o "max" <> None
    /\ forall k, k <> "min" -> k <> "max" -> lookup o k = None.

(** A field of a view that is absent or holds a truthy value. *)
Definition absent_or_truthy (v : View) (k : string) : Prop :=
  lookup v k = None \/ truthy (get v k) = true.

(** The views of the data model of the form: [properties] is an object
    whose keys are distinct and none of the reserved form keys, whose values
    are plain values or ranges; the fields [search], [sort], [step], [page]
    and [columns] are absent or truthy. *)
Record wf_view (v : View) (ps : Obj) : Prop := {
  wf_properties : lookup v "properties" = Some (JObj ps);
  wf_distinct : NoDup (keys ps);
  wf_unreserved : Forall (fun k => ~ In k form_keys) (keys ps);
  wf_values :
    Forall (fun kv => plain_property (snd kv) \/ range_property (snd kv)) ps;
  wf_fields :
    Forall (absent_or_truthy v) ["search"; "sort"; "step"; "page"; "columns"]
}.

(** A view without a name: it has no other field than [properties],
    [search], [sort], [step], [page] and [columns]. *)
Definition unnamed_view (v : View) : Prop :=
  Forall (fun k => In k unnamed_fields) (keys v).

(** A view whose name is set and which is, in [views], the first view of
    that name; it holds no [undefined]. *)
Definition named_view_of (views : option (list View)) (v : View) : Prop :=
  truthy (get v "name") = true
  /\ find_view views (get v "name") = Ok (Some v)
  /\ json_clean (JObj v) = true.

(** What decoding the encoding of [v] is compared with: [v], with the
    field [view] set to the name when [v] has a name. *)
Definition decoded_view (v : View) : View :=
  if truthy (get v "name") then set v "view" (get v "name") else v.

(** Neither [null] nor [undefined]. *)
Definition not_nullish (p : JsVal) : Prop := p <> JNull /\ p <> JUndefined.


(** The view [{name: "A", properties: {status: "open"}}]. *)
Definition view_A : View :=
  [("name", JStr "A"); ("properties", JObj [("status", JStr "open")])].


(** The props of a form over [view_A] that propagates on submit. *)
Definition props_A : Props :=
  {| view := Some view_A; views := Some [view_A]; updateOn := "submit";
     onTouched := false; onDone := false |}.

(** [null] or [undefined]. *)
Definition is_nullish (p : JsVal) : bool :=
  match p with
  | JNull | JUndefined => true
  | _ => false
  end.

(** Is the key one of the reserved keys of a form value. *)
Definition is_form_key (k : string) : bool :=
  existsb (String.eqb k) form_keys.

(** Does the form value hold [null] or [undefined] under a key that is not
    reserved. *)
Definition has_nullish_property (value : Obj) : bool :=
  existsb (fun kv => negb (is_form_key (fst kv)) && is_nullish (snd kv))
          value.

(** What [formValueToView] merges into [result.properties] under the key
    [k]: the entry of the form value unless the key is reserved or absent
    there, else the entry of [base], the properties the result was seeded
    with. *)
Definition merged_property (value base : Obj) (k : string) : option JsVal :=
  match (if is_form_key k then None else lookup value k) with
  | Some x => Some x
  | None => lookup base k
  end.

(** The field of the decoded view under the key [k], given what the result
    was seeded with: for a field of [viewFormKeyMap] the form value's entry
    when it is truthy, in every other case the seed's. *)
Definition decoded_field (value seed : Obj) (k : string) : option JsVal :=
  match find (fun km => String.eqb k (fst km)) viewFormKeyMap with
  | Some km =>
      if truthy (get value (snd km)) then Some (get value (snd km))
      else lookup seed k
  | None => lookup seed k
  end.

(** The properties that [formValueToView] starts from when the view [w]
    was found: those of its deep copy, or none. *)
Definition copied_properties (w : View) : Obj :=
  spread (js_or (get (JSON_props w) "properties") (JObj [])).

(** No entry of the object is [null] or [undefined]. *)
Definition no_nullish (o : Obj) : bool :=
  forallb (fun kv => negb (is_nullish (snd kv))) o.

(** The [{_range: [a, b]}] wrapper of a range with a numeric bound. *)
Definition range_wrapper (p : JsVal) : Prop :=
  exists a b : JsVal,
    p = JObj [(formRangeKey, JArr [a; b])]
    /\ is_number a || is_number b = true.

(** The form values that the form holds for a view without a name:
    distinct keys, no [_view], a [_search] that is the empty string or
    truthy, the other reserved keys absent or truthy, and under every other
    key a plain value or the wrapper of a range. *)
Record wf_form (value : Obj) : Prop := {
  wff_distinct : NoDup (keys value);
  wff_no_view : lookup value formViewNameKey = None;
  wff_search :
    exists x, lookup value formSearchKey = Some x
              /\ (x = JStr "" \/ truthy x = true);
  wff_fields :
    Forall (absent_or_truthy value)
           [formSortKey; formStepKey; formPageKey; formColumnsKey];
  wff_values :
    Forall (fun kv => is_form_key (fst kv) = true
                      \/ plain_property (snd kv)
                      \/ range_wrapper (snd kv)) value
}.

(** A string without a dot. *)
Definition dot_free (s : string) : Prop :=
  ~ In "."%char (list_ascii_of_string s).

(** The calls that React makes into the component: the two form handlers,
    the click on the reset button, and the effect that follows a new
    [view] in the context. *)
Inductive Event : Type :=
| EvChange : Obj -> Obj -> Event
| EvSubmit : Obj -> Obj -> Event
| EvReset : Event
| EvView : option View -> Event.

(** The props with another [view] from the context. *)
Definition with_view (p : Props) (v : option View) : Props :=
  {| view := v; views := views p; updateOn := updateOn p;
     onTouched := onTouched p; onDone := onDone p |}.

(** The dirty flag that a sequence of events leaves, from the flag [d]
    before them: set by a change, cleared by a submit or a reset, left
    alone by a new view. *)
Definition dirty_after (trace : list Event) (d : bool) : bool :=
  fold_left (fun d e => match e with
                        | EvChange _ _ => true
                        | EvSubmit _ _ | EvReset => false
                        | EvView _ => d
                        end) trace d.

(** One event, on the props and the state: a handler that throws leaves
    the state its [set...] calls made. *)
Definition step (StringToNumber : string -> option Z)
           (ps : Props * State) (e : Event) : Props * State :=
  let (p, s) := ps in
  match e with
  | EvChange value touched =>
      (p, state (onChange StringToNumber p s value touched))
  | EvSubmit value touched =>
      (p, state (onSubmit StringToNumber p s value touched))
  | EvReset => (p, onReset p s)
  | EvView v => (with_view p v, viewEffect (with_view p v) s)
  end.

(** A sequence of events. *)
Definition run (StringToNumber : string -> option Z)
           (trace : list Event) (ps : Props * State) : Props * State :=
  fold_left (step StringToNumber) trace ps.

(** Case analysis on whether the key [k] is the string [s]. *)
Ltac case_key k s :=
  let E := fresh "E" in
  destruct (String.eqb_spec k s) as [->|E].

(* ================================================================= *)
(** ** Properties of the object operations *)

Section ObjectLaws.

Implicit Types (o : Obj) (k : string) (v : JsVal).

Lemma lookup_set_eq o k v : lookup (set o k v) k = Some v.
Proof.
  induction o as [|[k' v'] r IH]; simpl.
  - now rewrite String.eqb_refl.
  - destruct (String.eqb k k') eqn:E; simpl.
    + now rewrite String.eqb_refl.
    + now rewrite E.
Qed.

Lemma lookup_set_neq o k k' v :
  k' <> k -> lookup (set o k v) k' = lookup o k'.
Proof.
  intros Hne. induction o as [|[k0 v0] r IH]; simpl.
  - apply String.eqb_neq in Hne. now rewrite Hne.
  - destruct (String.eqb k k0) eqn:E; simpl.
    + apply String.eqb_eq in E. subst k0.
      apply String.eqb_neq in Hne. now rewrite Hne.
    + now rewrite IH.
Qed.

Lemma lookup_delete_eq o k : lookup (delete o k) k = None.
Proof.
  induction o as [|[k' v'] r IH]; simpl; auto.
  destruct (String.eqb k k') eqn:E; simpl; auto.
  now rewrite E.
Qed.

Lemma lookup_delete_neq o k k' :
  k' <> k -> lookup (delete o k) k' = lookup o k'.
Proof.
  intros Hne. induction o as [|[k0 v0] r IH]; simpl; auto.
  destruct (String.eqb k k0) eqn:E; simpl.
  - apply String.eqb_eq in E. subst k0.
    apply String.eqb_neq in Hne. now rewrite Hne.
  - now rewrite IH.
Qed.

Lemma get_set_eq o k v : get (set o k v) k = v.
Proof. unfold get. now rewrite lookup_set_eq. Qed.

Lemma get_set_neq o k k' v : k' <> k -> get (set o k v) k' = get o k'.
Proof. intros H. unfold get. now rewrite lookup_set_neq. Qed.

Lemma get_delete_eq o k : get (delete o k) k = JUndefined.
Proof. unfold get. now rewrite lookup_delete_eq. Qed.

Lemma get_delete_neq o k k' : k' <> k -> get (delete o k) k' = get o k'.
Proof. intros H. unfold get. now rewrite lookup_delete_neq. Qed.

Lemma lookup_None_iff o k : lookup o k = None <-> ~ In k (keys o).
Proof.
  induction o as [|[k' v'] r IH]; simpl.
  - tauto.
  - destruct (String.eqb_spec k k') as [->|Hne].
    + split; [discriminate | intros H; exfalso; apply H; now left].
    + rewrite IH. split.
      * intros H [E|E]; [now apply Hne | now apply H].
      * intros H E. apply H. now right.
Qed.

Lemma lookup_Some_In o k v : lookup o k = Some v -> In k (keys o).
Proof.
  intros H. destruct (in_dec string_dec k (keys o)) as [Hin|Hnin]; auto.
  apply lookup_None_iff in Hnin. congruence.
Qed.

Lemma lookup_existsb o k :
  existsb (String.eqb k) (keys o) = false -> lookup o k = None.
Proof.
  intros H. apply lookup_None_iff. intros Hin.
  assert (existsb (String.eqb k) (keys o) = true) as E.
  { apply existsb_exists. exists k. split; auto. apply String.eqb_refl. }
  congruence.
Qed.

Lemma keys_set o k v :
  keys (set o k v) = if existsb (String.eqb k) (keys o)
                     then keys o else (keys o ++ [k])%list.
Proof.
  induction o as [|[k' v'] r IH]; simpl; auto.
  destruct (String.eqb k k') eqn:E; simpl.
  - apply String.eqb_eq in E. now subst.
  - rewrite IH. now destruct (existsb (String.eqb k) (keys r)).
Qed.

Lemma NoDup_keys_set o k v : NoDup (keys o) -> NoDup (keys (set o k v)).
Proof.
  intros Hnd. rewrite keys_set.
  destruct (existsb (String.eqb k) (keys o)) eqn:E; auto.
  apply NoDup_app; auto.
  - constructor; [intros [] | constructor].
  - intros x Hin [Hx|[]]. subst x.
    assert (existsb (String.eqb k) (keys o) = true) as E'.
    { apply existsb_exists. exists k. split; auto. apply String.eqb_refl. }
    congruence.
Qed.

End ObjectLaws.

(** [assign a b] reads from [b] first and from [a] otherwise. *)
Lemma lookup_assign (b a : Obj) (k : string) :
  lookup (assign a b) k =
  match lookup (rev b) k with
  | Some v => Some v
  | None => lookup a k
  end.
Proof.
  unfold assign. rewrite <- fold_left_rev_right.
  induction (rev b) as [|[k' v'] r IH]; simpl; auto.
  destruct (String.eqb_spec k k') as [->|Hne].
  - apply lookup_set_eq.
  - rewrite lookup_set_neq by auto. apply IH.
Qed.

(* ================================================================= *)
(** ** [clearEmpty] *)

Lemma lookup_fold_clear (ks : list string) (acc : Obj) (k : string) :
  lookup (fold_left clear_key ks acc) k =
  if existsb (String.eqb k) ks && is_empty_array (get acc k)
  then None else lookup acc k.
Proof.
  revert acc. induction ks as [|k0 ks IH]; intros acc; simpl; auto.
  rewrite IH. unfold clear_key.
  destruct (String.eqb_spec k k0) as [->|Hne]; simpl.
  - destruct (is_empty_array (get acc k0)) eqn:E.
    + now rewrite get_delete_eq, andb_false_r, lookup_delete_eq.
    + now rewrite E, andb_false_r.
  - destruct (is_empty_array (get acc k0)).
    + now rewrite get_delete_neq, lookup_delete_neq by auto.
    + reflexivity.
Qed.

Lemma lookup_clearEmpty (o : Obj) (k : string) :
  lookup (clearEmpty o) k =
  match lookup o k with
  | Some (JArr []) => None
  | other => other
  end.
Proof.
  unfold clearEmpty. rewrite lookup_fold_clear.
  destruct (existsb (String.eqb k) (keys o)) eqn:E; simpl.
  - unfold get. destruct (lookup o k) as [v|]; auto.
    destruct v as [| | | | |[|x l]|]; reflexivity.
  - now rewrite (lookup_existsb _ _ E).
Qed.

Lemma get_clearEmpty (o : Obj) (k : string) :
  get (clearEmpty o) k =
  if is_empty_array (get o k) then JUndefined else get o k.
Proof.
  unfold get. rewrite lookup_clearEmpty.
  destruct (lookup o k) as [v|]; auto.
  destruct v as [| | | | |[|x l]|]; reflexivity.
Qed.

(** C9. [clearEmpty] removes exactly the keys whose value is an array with
    no element: such a key is absent from the result, and every other key
    reads as before (absent if it was absent, the same value otherwise).  On
    [{color: [], size: "M"}] the result is [{size: "M"}]. *)
Theorem clearEmpty_removes_exactly_empty_arrays :
  (forall (o : Obj) (k : string),
      lookup (clearEmpty o) k =
      match lookup o k with
      | Some (JArr []) => None
      | other => other
      end)
  /\ clearEmpty [("color", JArr []); ("size", JStr "M")]
     = [("size", JStr "M")].
Proof.
  split.
  - apply lookup_clearEmpty.
  - reflexivity.
Qed.

(* ================================================================= *)
(** ** [resetPage] *)

Section ResetPage.

Variable StringToNumber : string -> option Z.

Lemma lookup_resetPage_other (next prev : Obj) (k : string) :
  k <> formPageKey ->
  lookup (resetPage StringToNumber next prev) k = lookup next k.
Proof.
  intros Hne. unfold resetPage.
  destruct (truthy (get prev formPageKey)
            && js_gt StringToNumber (get prev formPageKey) 1); auto.
  now apply lookup_set_neq.
Qed.

Lemma resetPage_number (next prev : Obj) (n : Z) :
  get prev formPageKey = JNum n ->
  resetPage StringToNumber next prev =
  if 1 <? n then set next formPageKey (JNum 1) else next.
Proof.
  intros H. unfold resetPage, js_gt. rewrite H. simpl.
  destruct (1 <? n) eqn:E.
  - assert ((n =? 0) = false) as ->; auto.
    apply Z.eqb_neq. apply Z.ltb_lt in E. lia.
  - now rewrite andb_false_r.
Qed.

(** C6. Whatever [next] and [prev] are, when [prev._page] is a number
    greater than 1 the value of [next._page] after [resetPage(next, prev)]
    is 1, whichever fields differ between the two (and likewise for any
    [prev._page] that is truthy and compares greater than 1); and no key
    of [next] other than [_page] is touched.  With [prev = {_page: 3, q: "a"}] and
    [next = {_page: 3, q: "b"}] the page becomes 1. *)
Theorem resetPage_forces_first_page (next prev : Obj) :
  (forall n : Z,
      get prev formPageKey = JNum n -> 1 < n ->
      lookup (resetPage StringToNumber next prev) formPageKey
      = Some (JNum 1))
  /\ (truthy (get prev formPageKey) = true ->
      js_gt StringToNumber (get prev formPageKey) 1 = true ->
      lookup (resetPage StringToNumber next prev) formPageKey
      = Some (JNum 1))
  /\ (forall k : string,
         k <> formPageKey ->
         lookup (resetPage StringToNumber next prev) k = lookup next k)
  /\ resetPage StringToNumber
       [("_page", JNum 3); ("q", JStr "b")]
       [("_page", JNum 3); ("q", JStr "a")]
     = [("_page", JNum 1); ("q", JStr "b")].
Proof.
  split; [|split; [|split]].
  - intros n Hn Hlt. rewrite (resetPage_number _ _ Hn).
    apply Z.ltb_lt in Hlt. rewrite Hlt. apply lookup_set_eq.
  - intros Ht Hgt. unfold resetPage. rewrite Ht, Hgt.
    apply lookup_set_eq.
  - apply lookup_resetPage_other.
  - reflexivity.
Qed.

End ResetPage.

Lemma resetPage_forces_first_page_witness :
  lookup (resetPage (fun _ => None)
            [("q", JStr "b")] [("_page", JNum 2); ("q", JStr "a")])
         formPageKey = Some (JNum 1)
  /\ lookup (resetPage (fun _ => None)
               [("q", JStr "b")] [("_page", JNum 2); ("q", JStr "a")]) "q"
     = Some (JStr "b").
Proof.
  destruct (resetPage_forces_first_page (fun _ => None)
              [("q", JStr "b")] [("_page", JNum 2); ("q", JStr "a")])
    as [Hpage [_ [Hother _]]].
  split.
  - apply (Hpage 2); [reflexivity | lia].
  - apply Hother. discriminate.
Defined.

(* ================================================================= *)
(** ** [transformTouched] *)

Lemma reported_set_eq (r : Reported) (k : string) (m : Member) :
  reported (report_set r k m) k = Some m.
Proof.
  induction r as [|[k' m'] rest IH]; simpl.
  - now rewrite String.eqb_refl.
  - destruct (String.eqb k k') eqn:E; simpl.
    + now rewrite String.eqb_refl.
    + now rewrite E.
Qed.

Lemma reported_set_neq (r : Reported) (k k' : string) (m : Member) :
  k' <> k -> reported (report_set r k m) k' = reported r k'.
Proof.
  intros Hne. induction r as [|[k0 m0] rest IH]; simpl.
  - apply String.eqb_neq in Hne. now rewrite Hne.
  - destruct (String.eqb k k0) eqn:E; simpl.
    + apply String.eqb_eq in E. subst k0.
      apply String.eqb_neq in Hne. now rewrite Hne.
    + now rewrite IH.
Qed.



(** What an assignment leaves under each key. *)
Lemma reported_report (r : Reported) (key k : string) (m : Member) :
  reported (report r key m) k =
  if String.eqb k key
  then match reported r key with
       | Some _ => Some m
       | None => if String.eqb key "__proto__" then None else Some m
       end
  else reported r k.
Proof.
  unfold report. destruct (String.eqb_spec k key) as [->|Hne].
  - destruct (reported r key) eqn:E.
    + apply reported_set_eq.
    + destruct (String.eqb key "__proto__"); [exact E | apply reported_set_eq].
  - destruct (reported r key); [now apply reported_set_neq|].
    destruct (String.eqb key "__proto__"); auto.
    now apply reported_set_neq.
Qed.


(** The loop of [transformTouched], from an object without an own
    [__proto__]. *)
Lemma reported_fold_report (f : string -> Member) (ks : list string)
      (acc : Reported) (k : string) :
  reported acc "__proto__" = None ->
  reported (fold_left (fun result key => report result key (f key)) ks acc) k
  = if existsb (String.eqb k) ks && negb (String.eqb k "__proto__")
    then Some (f k) else reported acc k.
Proof.
  revert acc. induction ks as [|k0 ks IH]; intros acc Hp; simpl; auto.
  assert (reported (report acc k0 (f k0)) "__proto__" = None) as Hp'.
  { rewrite reported_report.
    destruct (String.eqb_spec "__proto__" k0) as [<-|Hne]; auto.
    now rewrite Hp. }
  rewrite (IH _ Hp'), reported_report.
  destruct (String.eqb_spec k k0) as [->|Hne]; simpl; auto.
  destruct (String.eqb_spec k0 "__proto__") as [->|Hnp]; simpl.
  - rewrite Hp. now rewrite andb_false_r.
  - rewrite andb_true_r.
    destruct (existsb (String.eqb k0) ks);
      destruct (reported acc k0); reflexivity.
Qed.


Lemma reported_transformTouched (touched value : Obj) (k : string) :
  reported (transformTouched touched value) k =
  if existsb (String.eqb k) (keys touched)
     && negb (String.eqb k "__proto__")
  then Some (touched_value value k) else None.
Proof.
  unfold transformTouched. now rewrite reported_fold_report.
Qed.

Lemma split_dot_first (s : string) :
  exists p rest, split_dot s = p :: rest.
Proof.
  destruct s as [|c r]; simpl; eauto.
  destruct (Ascii.eqb c "."); eauto.
  destruct (split_dot r); eauto.
Qed.

(** [split] cuts at the dots and nowhere else. *)
Lemma concat_split_dot (s : string) : String.concat "." (split_dot s) = s.
Proof.
  induction s as [|c r IH]; auto.
  destruct (split_dot_first r) as [p [rest E]].
  simpl split_dot. rewrite E in *.
  destruct (Ascii.eqb_spec c "."%char) as [->|Hne].
  - rewrite <- IH. reflexivity.
  - rewrite <- IH. destruct rest; reflexivity.
Qed.

Lemma split_dot_segments (s seg : string) :
  In seg (split_dot s) -> ~ In "."%char (list_ascii_of_string seg).
Proof.
  revert seg. induction s as [|c r IH]; intros seg.
  - intros [<-|[]] [].
  - destruct (split_dot_first r) as [p [rest E]].
    simpl split_dot. rewrite E in *.
    destruct (Ascii.eqb_spec c "."%char) as [->|Hne].
    + intros [<-|Hin]; [intros [] | apply IH, Hin].
    + intros [<-|Hin].
      * simpl. intros [Hc|Hp]; [congruence|].
        revert Hp. apply IH. now left.
      * apply IH. now right.
Qed.




(* ================================================================= *)
(** ** The codec on ranges and on a missing view *)


Lemma viewToFormValue_undefined :
  viewToFormValue None = [("_search", JStr "")].
Proof. reflexivity. Qed.

Lemma normalizeValue_switch (next prev : Obj) (views : option (list View)) :
  truthy (get next formViewNameKey) = true ->
  strict_eq (get next formViewNameKey) (get prev formViewNameKey) = false ->
  normalizeValue next prev views =
  (found <- find_view views (get next formViewNameKey) ;;
   Ok (viewToFormValue found)).
Proof.
  intros Ht Hne. unfold normalizeValue. now rewrite Ht, Hne.
Qed.

(** The deep copy of a view that was found is the object of the properties
    that JSON keeps; with nothing found, [JSON.parse] throws. *)
Lemma clone_view_found (o : View) : clone_view (Some o) = Ok (JSON_props o).
Proof. reflexivity. Qed.

Lemma clone_view_not_found : clone_view None = Throw SyntaxError.
Proof. reflexivity. Qed.

Lemma formValueToView_not_found (value : Obj) (l : list View) :
  truthy (get value formViewNameKey) = true ->
  find (fun v => strict_eq (get v "name") (get value formViewNameKey)) l
  = None ->
  formValueToView value (Some l) = Throw SyntaxError.
Proof.
  intros Ht Hf. unfold formValueToView. rewrite Ht.
  unfold find_view. cbn [bind]. rewrite Hf. reflexivity.
Qed.

Lemma formValueToView_no_views (value : Obj) :
  truthy (get value formViewNameKey) = true ->
  formValueToView value None = Throw TypeError.
Proof.
  intros Ht. unfold formValueToView. now rewrite Ht.
Qed.

(** C10. [viewToFormValue(undefined)] is [{_search: ""}].  So when
    [next._view] is set, differs from [prev._view] and names no view of the
    collection, [normalizeValue] returns [{_search: ""}]; [formValueToView]
    on a form value naming no view of the collection throws instead. *)
Theorem encode_is_total_on_missing_view
        (next prev : Obj) (l : list View) :
  truthy (get next formViewNameKey) = true ->
  strict_eq (get next formViewNameKey) (get prev formViewNameKey) = false ->
  find (fun v => strict_eq (get v "name") (get next formViewNameKey)) l
  = None ->
  viewToFormValue None = [("_search", JStr "")]
  /\ normalizeValue next prev (Some l) = Ok [("_search", JStr "")]
  /\ formValueToView next (Some l) = Throw SyntaxError.
Proof.
  intros Ht Hne Hf. split; [|split].
  - apply viewToFormValue_undefined.
  - rewrite normalizeValue_switch by auto. simpl. now rewrite Hf.
  - now apply formValueToView_not_found.
Qed.

Lemma encode_is_total_on_missing_view_witness :
  viewToFormValue None = [("_search", JStr "")]
  /\ normalizeValue [("_view", JStr "B"); ("q", JStr "x")]
       [("_view", JStr "A")]
       (Some [[("name", JStr "A"); ("properties", JObj [])]])
     = Ok [("_search", JStr "")]
  /\ formValueToView [("_view", JStr "B"); ("q", JStr "x")]
       (Some [[("name", JStr "A"); ("properties", JObj [])]])
     = Throw SyntaxError.
Proof.
  apply (encode_is_total_on_missing_view
           [("_view", JStr "B"); ("q", JStr "x")] [("_view", JStr "A")]
           [[("name", JStr "A"); ("properties", JObj [])]]);
    reflexivity.
Defined.

(** C2. What the code does where the claim asks for a fallback: a form
    value whose [_view] names no view of the collection makes
    [formValueToView] throw (a [SyntaxError] from [JSON.parse]), and with no
    collection at all it throws a [TypeError]; the same holds for
    [normalizeValue] when there is no collection. *)
Theorem formValueToView_throws_on_missing_view :
  formValueToView [("_view", JStr "B")] (Some []) = Throw SyntaxError
  /\ formValueToView [("_view", JStr "B")]
       (Some [[("name", JStr "A"); ("properties", JObj [])]])
     = Throw SyntaxError
  /\ formValueToView [("_view", JStr "B")] None = Throw TypeError
  /\ normalizeValue [("_view", JStr "B")] [("_view", JStr "B")] None
     = Throw TypeError.
Proof. repeat split. Qed.

(* ================================================================= *)
(** ** [normalizeValue]: the view-switch branch *)

(** C4. When [next._view] is set and differs from [prev._view],
    [normalizeValue(next, prev, views)] is exactly
    [viewToFormValue(views.find(...))] for the view named by [next._view];
    nothing else of [next] reaches the result. *)
Theorem view_switch_returns_canonical_encoding
        (next prev : Obj) (l : list View) :
  truthy (get next formViewNameKey) = true ->
  strict_eq (get next formViewNameKey) (get prev formViewNameKey) = false ->
  normalizeValue next prev (Some l) =
  Ok (viewToFormValue
        (find (fun v => strict_eq (get v "name") (get next formViewNameKey))
              l)).
Proof.
  intros Ht Hne. now rewrite normalizeValue_switch.
Qed.

Lemma view_switch_returns_canonical_encoding_witness :
  normalizeValue
    [("_view", JStr "B"); ("q", JStr "x")]
    [("_view", JStr "A")]
    (Some [[("name", JStr "A"); ("properties", JObj [("q", JStr "a")])];
           [("name", JStr "B"); ("properties", JObj [("s", JStr "b")])]])
  = Ok (viewToFormValue
          (Some [("name", JStr "B"); ("properties", JObj [("s", JStr "b")])])).
Proof.
  apply (view_switch_returns_canonical_encoding
           [("_view", JStr "B"); ("q", JStr "x")]
           [("_view", JStr "A")]
           [[("name", JStr "A"); ("properties", JObj [("q", JStr "a")])];
            [("name", JStr "B"); ("properties", JObj [("s", JStr "b")])]]);
    reflexivity.
Defined.

(* ================================================================= *)
(** ** Comparison through JSON *)


Lemma JSON_stringify_obj (o : Obj) :
  JSON_stringify (JObj o) = Some (JObj (JSON_props o)).
Proof.
  reflexivity.
Qed.

Lemma JSON_stringify_clean (v : JsVal) :
  json_clean v = true -> JSON_stringify v = Some v.
Proof.
  induction v as [| |x|x|x|xs IH|xs IH] using JsVal_ind; simpl; auto.
  - discriminate.
  - intros H. do 2 f_equal. induction IH as [|x xs Hx _ IHxs]; auto.
    simpl in H. apply andb_true_iff in H. destruct H as [H1 H2].
    simpl. now rewrite (Hx H1), (IHxs H2).
  - intros H. do 2 f_equal. induction IH as [|[k x] xs Hx _ IHxs]; auto.
    simpl in H. apply andb_true_iff in H. destruct H as [H1 H2].
    simpl in Hx. now rewrite (Hx H1), (IHxs H2).
Qed.

Lemma JSON_props_clean (o : Obj) :
  json_clean (JObj o) = true -> JSON_props o = o.
Proof.
  intros H. apply JSON_stringify_clean in H.
  rewrite JSON_stringify_obj in H. congruence.
Qed.


(* ================================================================= *)
(** ** [normalizeValue]: the edit branch *)



Lemma strict_eq_not_empty_array (a b : JsVal) :
  strict_eq a b = true -> is_empty_array a = false.
Proof. destruct a as [| | | | |[|x l]|]; simpl; auto; discriminate. Qed.

Lemma falsy_not_empty_array (a : JsVal) :
  truthy a = false -> is_empty_array a = false.
Proof. destruct a as [| | | | |[|x l]|]; simpl; auto; discriminate. Qed.





(** The edit branch, as the code decides it: by the JSON texts. *)
Lemma edit_branch_characterised (next prev : Obj) (l : list View) :
  truthy (get next formViewNameKey) = false
  \/ strict_eq (get next formViewNameKey) (get prev formViewNameKey) = true ->
  normalizeValue next prev (Some l) =
  if truthy (get next formViewNameKey)
  then if existsb (diverges (clearEmpty next) (named_encoding next l))
                  (keys (named_encoding next l))
       then Ok (delete (clearEmpty next) formViewNameKey)
       else Ok (clearEmpty next)
  else Ok (clearEmpty next).
Proof.
  intros Hedit.
  assert (is_empty_array (get next formViewNameKey) = false) as Hna.
  { destruct Hedit as [H|H];
      [now apply falsy_not_empty_array
      | now apply strict_eq_not_empty_array in H]. }
  assert (get (clearEmpty next) formViewNameKey = get next formViewNameKey)
    as Hpv by now rewrite get_clearEmpty, Hna.
  unfold normalizeValue, named_encoding. rewrite Hpv.
  destruct (truthy (get next formViewNameKey)) eqn:Ht; simpl.
  - destruct Hedit as [H|H]; [discriminate|]. now rewrite H.
  - reflexivity.
Qed.

Lemma lookup_clearEmpty_view (next prev : Obj) :
  truthy (get next formViewNameKey) = false
  \/ strict_eq (get next formViewNameKey) (get prev formViewNameKey) = true ->
  lookup (clearEmpty next) formViewNameKey = lookup next formViewNameKey.
Proof.
  intros Hedit.
  assert (is_empty_array (get next formViewNameKey) = false) as Hna.
  { destruct Hedit as [H|H];
      [now apply falsy_not_empty_array
      | now apply strict_eq_not_empty_array in H]. }
  rewrite lookup_clearEmpty. unfold get in Hna.
  destruct (lookup next formViewNameKey) as [v|]; auto.
  destruct v as [| | | | |[|x xs]|]; auto. discriminate.
Qed.

(** *** Structural equality on the form's data *)








(** C3, a second way in which the claim as stated fails: a view with a
    property named [constructor].  The form value names the view and has
    the property cleared, so the key is absent on the edited side; the code
    reads the inherited [Object.prototype.constructor] there and removes
    [_view]. *)
Lemma inherited_member_drops_view :
  lookup (clearEmpty [("_view", JStr "A")]) "constructor" = None
  /\ normalizeValue
       [("_view", JStr "A")] [("_view", JStr "A")]
       (Some [[("name", JStr "A");
               ("properties", JObj [("constructor", JStr "x")])]])
     = Ok [].
Proof. split; reflexivity. Qed.

(* ================================================================= *)
(** ** The component's state *)

(** With a collection of views at hand, [normalizeValue] returns. *)
Lemma normalizeValue_returns (next prev : Obj) (l : list View) :
  exists r, normalizeValue next prev (Some l) = Ok r.
Proof.
  unfold normalizeValue.
  destruct (truthy (get next formViewNameKey)
            && negb (strict_eq (get next formViewNameKey)
                               (get prev formViewNameKey))); simpl.
  - eauto.
  - destruct (truthy (get (clearEmpty next) formViewNameKey)); eauto.
    match goal with |- context [existsb ?f ?ks] => destruct (existsb f ks) end;
      eauto.
Qed.

Section Component.

Variable StringToNumber : string -> option Z.

Lemma onChange_state (p : Props) (s : State) (value touched r : Obj) :
  normalizeValue value (formValue s) (views p) = Ok r ->
  state (onChange StringToNumber p s value touched) =
  {| formValue := resetPage StringToNumber r (formValue s);
     changed := JBool true |}.
Proof.
  intros H. unfold onChange. rewrite H.
  destruct (String.eqb (updateOn p) "change"); auto.
  destruct (formValueToView _ _); reflexivity.
Qed.

Lemma onSubmit_state (p : Props) (s : State) (value touched r : Obj) :
  normalizeValue value (formValue s) (views p) = Ok r ->
  state (onSubmit StringToNumber p s value touched) =
  {| formValue := resetPage StringToNumber r (formValue s);
     changed := JBool false |}.
Proof.
  intros H. unfold onSubmit. rewrite H.
  destruct (formValueToView _ _); reflexivity.
Qed.

(** C5, as the code has it.  The component starts clean with the
    encoding of the view.  With a collection of views at hand, a change
    event commits the normalised value and leaves the state dirty, a
    submit event commits it and leaves the state clean; a reset puts the
    encoding of the view back and leaves the state clean.  The effect run
    when the view arrives or is replaced puts the encoding of the view
    into the form value and leaves the dirty flag as it is. *)
Theorem dirty_flag_transitions
        (p : Props) (s : State) (l : list View) (value touched : Obj) :
  views p = Some l ->
  (formValue (mount p) = viewToFormValue (view p)
   /\ dirty (mount p) = false)
  /\ (exists r,
         normalizeValue value (formValue s) (views p) = Ok r
         /\ formValue (state (onChange StringToNumber p s value touched))
            = resetPage StringToNumber r (formValue s)
         /\ dirty (state (onChange StringToNumber p s value touched)) = true
         /\ formValue (state (onSubmit StringToNumber p s value touched))
            = resetPage StringToNumber r (formValue s)
         /\ dirty (state (onSubmit StringToNumber p s value touched))
            = false)
  /\ (formValue (onReset p s) = viewToFormValue (view p)
      /\ dirty (onReset p s) = false)
  /\ (formValue (viewEffect p s) = viewToFormValue (view p)
      /\ dirty (viewEffect p s) = dirty s).
Proof.
  intros Hv. split; [|split; [|split]]; try (split; reflexivity).
  rewrite Hv. destruct (normalizeValue_returns value (formValue s) l)
    as [r Hr].
  exists r. split; [exact Hr|].
  rewrite <- Hv in Hr.
  rewrite (onChange_state p s value touched Hr).
  rewrite (onSubmit_state p s value touched Hr).
  repeat split.
Qed.

End Component.

Lemma dirty_flag_transitions_witness :
  dirty (state (onChange (fun _ => None) props_A (mount props_A)
                  [("status", JStr "closed")] [("status", JBool true)]))
  = true
  /\ dirty (state (onSubmit (fun _ => None) props_A (mount props_A)
                     [("status", JStr "closed")] [("status", JBool true)]))
     = false.
Proof.
  destruct (dirty_flag_transitions (fun _ => None) props_A (mount props_A)
              [("status", JStr "closed")] [("status", JBool true)]
              (l := [view_A]) eq_refl)
    as [_ [[r [_ [_ [Hc [_ Hs]]]]] _]].
  split; [exact Hc | exact Hs].
Defined.

(** C5, the claim as stated fails: after a change has made the state
    dirty, the arrival of another view replaces the form value by the
    encoding of that view and the state is still dirty. *)
Lemma view_arrival_keeps_dirty :
  let dirty_state :=
    state (onChange (fun _ => None) props_A (mount props_A)
             [("status", JStr "closed")] [("status", JBool true)]) in
  let arrival :=
    {| view := Some [("properties", JObj [])]; views := Some [view_A];
       updateOn := "submit"; onTouched := false; onDone := false |} in
  dirty dirty_state = true
  /\ formValue (viewEffect arrival dirty_state)
     = viewToFormValue (Some [("properties", JObj [])])
  /\ dirty (viewEffect arrival dirty_state) <> false.
Proof.
  repeat split. discriminate.
Qed.

(* ================================================================= *)
(** ** The codec: what [viewToFormValue] puts under each key *)

Lemma lookup_cond_set (c : bool) (o : Obj) (k k' : string) (x : JsVal) :
  lookup (if c then set o k x else o) k' =
  if c && String.eqb k' k then Some x else lookup o k'.
Proof.
  destruct c; simpl; auto.
  destruct (String.eqb_spec k' k) as [->|Hne].
  - apply lookup_set_eq.
  - now apply lookup_set_neq.
Qed.

Lemma lookup_cond_keep (c : bool) (o : Obj) (k k' : string) (x : JsVal) :
  lookup (if c then o else set o k x) k' =
  if negb c && String.eqb k' k then Some x else lookup o k'.
Proof.
  destruct c; simpl; auto.
  destruct (String.eqb_spec k' k) as [->|Hne].
  - apply lookup_set_eq.
  - now apply lookup_set_neq.
Qed.

Lemma encode_value_idem (p : JsVal) :
  encode_value (encode_value p) = encode_value p.
Proof.
  unfold encode_value. destruct (is_range p) eqn:E.
  - reflexivity.
  - now rewrite E.
Qed.

Lemma lookup_encode_range (acc : Obj) (k0 k : string) :
  lookup (encode_range acc k0) k =
  if String.eqb k k0 then option_map encode_value (lookup acc k)
  else lookup acc k.
Proof.
  unfold encode_range. fold (is_range (get acc k0)).
  destruct (String.eqb_spec k k0) as [->|Hne].
  - unfold get, encode_value.
    destruct (lookup acc k0) as [p|] eqn:E; simpl.
    + destruct (is_range p); [apply lookup_set_eq | exact E].
    + exact E.
  - destruct (is_range (get acc k0)); auto. now apply lookup_set_neq.
Qed.

Lemma lookup_fold_encode_range (ks : list string) (acc : Obj) (k : string) :
  lookup (fold_left encode_range ks acc) k =
  if existsb (String.eqb k) ks then option_map encode_value (lookup acc k)
  else lookup acc k.
Proof.
  revert acc. induction ks as [|k0 ks IH]; intros acc; simpl; auto.
  rewrite IH, lookup_encode_range.
  destruct (String.eqb k k0); simpl; auto.
  destruct (existsb (String.eqb k) ks); auto.
  destruct (lookup acc k); simpl; auto. now rewrite encode_value_idem.
Qed.

Lemma lookup_encoded_properties (ps : Obj) (k : string) :
  lookup (fold_left encode_range (keys ps) ps) k =
  option_map encode_value (lookup ps k).
Proof.
  rewrite lookup_fold_encode_range.
  destruct (existsb (String.eqb k) (keys ps)) eqn:E; auto.
  now rewrite (lookup_existsb _ _ E).
Qed.

(** The form value of a view, key by key. *)
Lemma lookup_viewToFormValue (v : View) (ps : Obj) (k : string) :
  lookup v "properties" = Some (JObj ps) ->
  Forall (fun k => ~ In k form_keys) (keys ps) ->
  lookup (viewToFormValue (Some v)) k =
  if String.eqb k formSearchKey then
    Some (if truthy (get v "search") then get v "search" else JStr "")
  else if String.eqb k formSortKey then
    if truthy (get v "sort") then Some (get v "sort") else None
  else if String.eqb k formStepKey then
    if truthy (get v "step") then Some (get v "step") else None
  else if String.eqb k formPageKey then
    if truthy (get v "page") then Some (get v "page") else None
  else if String.eqb k formColumnsKey then
    if truthy (get v "columns") then Some (get v "columns") else None
  else if String.eqb k formViewNameKey then
    if truthy (get v "name") then Some (get v "name")
    else if truthy (get v "view") then Some (get v "view") else None
  else option_map encode_value (lookup ps k).
Proof.
  intros Hps Hres.
  assert (forall fk, In fk form_keys -> lookup ps fk = None) as Hnone.
  { intros fk Hin. apply lookup_None_iff. intros Hk.
    rewrite Forall_forall in Hres. exact (Hres fk Hk Hin). }
  unfold viewToFormValue, view_get.
  assert (get v "properties" = JObj ps) as -> by (unfold get; now rewrite Hps).
  cbn [js_or truthy spread].
  remember (fold_left encode_range (keys ps) ps) as E1 eqn:HE1.
  assert (forall k, lookup E1 k = option_map encode_value (lookup ps k))
    as HlE by (intros; subst E1; apply lookup_encoded_properties).
  remember (fold_left (encode_key (Some v)) viewFormKeyMap E1) as R2 eqn:HR2.
  assert (forall k,
    lookup R2 k =
    if truthy (get v "view") && String.eqb k formViewNameKey
    then Some (get v "view")
    else if truthy (get v "columns") && String.eqb k formColumnsKey
    then Some (get v "columns")
    else if truthy (get v "page") && String.eqb k formPageKey
    then Some (get v "page")
    else if truthy (get v "step") && String.eqb k formStepKey
    then Some (get v "step")
    else if truthy (get v "sort") && String.eqb k formSortKey
    then Some (get v "sort")
    else if truthy (get v "search") && String.eqb k formSearchKey
    then Some (get v "search")
    else option_map encode_value (lookup ps k)) as HlR2.
  { intros k'. subst R2. cbn [fold_left viewFormKeyMap].
    unfold encode_key. cbn [fst snd view_get].
    rewrite !lookup_cond_set. now rewrite HlE. }
  clear HR2 HE1 HlE.
  assert (get R2 formSearchKey =
          if truthy (get v "search") then get v "search" else JUndefined)
    as Hs.
  { unfold get at 1. rewrite HlR2. cbn [String.eqb formSearchKey
      formViewNameKey formColumnsKey formPageKey formStepKey formSortKey
      Ascii.eqb Bool.eqb andb].
    rewrite !andb_false_r, andb_true_r.
    destruct (truthy (get v "search")); auto.
    rewrite Hnone; [reflexivity | simpl; tauto]. }
  rewrite !lookup_cond_set, lookup_cond_keep. rewrite Hs, HlR2.
  assert (truthy (if truthy (get v "search") then get v "search"
                  else JUndefined) = truthy (get v "search")) as ->
      by (destruct (truthy (get v "search")) eqn:E; auto).
  destruct (String.eqb_spec k formSearchKey) as [->|N1].
  { cbn. rewrite !andb_false_r.
    destruct (truthy (get v "search")); reflexivity. }
  destruct (String.eqb_spec k formSortKey) as [->|N2].
  { cbn. rewrite !andb_false_r, !andb_true_r.
    destruct (truthy (get v "sort")); auto.
    rewrite Hnone; [reflexivity | simpl; tauto]. }
  destruct (String.eqb_spec k formStepKey) as [->|N3].
  { cbn. rewrite !andb_false_r, !andb_true_r.
    destruct (truthy (get v "step")); auto.
    rewrite Hnone; [reflexivity | simpl; tauto]. }
  destruct (String.eqb_spec k formPageKey) as [->|N4].
  { cbn. rewrite !andb_false_r, !andb_true_r.
    destruct (truthy (get v "page")); auto.
    rewrite Hnone; [reflexivity | simpl; tauto]. }
  destruct (String.eqb_spec k formColumnsKey) as [->|N5].
  { cbn. rewrite !andb_false_r, !andb_true_r.
    destruct (truthy (get v "columns")); auto.
    rewrite Hnone; [reflexivity | simpl; tauto]. }
  destruct (String.eqb_spec k formViewNameKey) as [->|N6].
  { cbn. rewrite !andb_false_r, !andb_true_r.
    destruct (truthy (get v "name")); auto.
    destruct (truthy (get v "view")); auto.
    rewrite Hnone; [reflexivity | simpl; tauto]. }
  rewrite !andb_false_r. reflexivity.
Qed.

Lemma NoDup_keys_cond_set (c : bool) (o : Obj) (k : string) (x : JsVal) :
  NoDup (keys o) -> NoDup (keys (if c then set o k x else o)).
Proof. destruct c; auto. apply NoDup_keys_set. Qed.

Lemma NoDup_keys_fold_encode_range (ks : list string) (acc : Obj) :
  NoDup (keys acc) -> NoDup (keys (fold_left encode_range ks acc)).
Proof.
  revert acc. induction ks as [|k0 ks IH]; intros acc H; simpl; auto.
  apply IH. unfold encode_range. now apply NoDup_keys_cond_set.
Qed.

(** The form value of a view with distinct property keys has distinct
    keys. *)
Lemma NoDup_keys_viewToFormValue (v : View) (ps : Obj) :
  lookup v "properties" = Some (JObj ps) ->
  NoDup (keys ps) ->
  NoDup (keys (viewToFormValue (Some v))).
Proof.
  intros Hps Hnd. unfold viewToFormValue, view_get.
  assert (get v "properties" = JObj ps) as -> by (unfold get; now rewrite Hps).
  cbn [js_or truthy spread].
  repeat apply NoDup_keys_cond_set.
  match goal with
  | |- NoDup (keys (if ?c then ?o else _)) =>
      assert (NoDup (keys o)) as Ho; [|destruct c; auto using NoDup_keys_set]
  end.
  cbn [fold_left viewFormKeyMap]. unfold encode_key.
  repeat apply NoDup_keys_cond_set.
  now apply NoDup_keys_fold_encode_range.
Qed.

(* ================================================================= *)
(** ** The codec: what [formValueToView] makes of a form value *)

Lemma lookup_fold_delete (ks : list string) (o : Obj) (k : string) :
  lookup (fold_left delete ks o) k =
  if existsb (String.eqb k) ks then None else lookup o k.
Proof.
  revert o. induction ks as [|k0 ks IH]; intros o; simpl; auto.
  rewrite IH. destruct (String.eqb_spec k k0) as [->|Hne]; simpl.
  - rewrite lookup_delete_eq. now destruct (existsb (String.eqb k0) ks).
  - now rewrite lookup_delete_neq.
Qed.

Lemma keys_delete (o : Obj) (k : string) :
  keys (delete o k) = filter (fun k' => negb (String.eqb k k')) (keys o).
Proof.
  induction o as [|[k' x] r IH]; simpl; auto.
  destruct (String.eqb k k'); simpl; now rewrite IH.
Qed.

Lemma NoDup_keys_fold_delete (ks : list string) (o : Obj) :
  NoDup (keys o) -> NoDup (keys (fold_left delete ks o)).
Proof.
  revert o. induction ks as [|k0 ks IH]; intros o H; simpl; auto.
  apply IH. rewrite keys_delete. now apply NoDup_filter.
Qed.

Lemma lookup_app (a b : Obj) (k : string) :
  lookup (a ++ b)%list k =
  match lookup a k with
  | Some x => Some x
  | None => lookup b k
  end.
Proof.
  induction a as [|[k' x] r IH]; simpl; auto.
  now destruct (String.eqb k k').
Qed.

Lemma lookup_rev (o : Obj) (k : string) :
  NoDup (keys o) -> lookup (rev o) k = lookup o k.
Proof.
  induction o as [|[k' x] r IH]; simpl; auto.
  intros H. inversion H as [|? ? Hnin Hnd]; subst.
  rewrite lookup_app, (IH Hnd). simpl.
  destruct (String.eqb_spec k k') as [->|Hne].
  - apply lookup_None_iff in Hnin. now rewrite Hnin.
  - now destruct (lookup r k).
Qed.

(** The reserved-key loop, with the two objects it works on told apart:
    each [valueCopy[...]] it reads is still what [value] holds. *)
Lemma fold_decode_key (seed value : Obj) :
  fold_left decode_key viewFormKeyMap (seed, value) =
  (fold_left (fun r km => if truthy (get value (snd km))
                          then set r (fst km) (get value (snd km)) else r)
             viewFormKeyMap seed,
   fold_left delete form_keys value).
Proof.
  cbn [fold_left viewFormKeyMap form_keys map decode_key fst snd].
  rewrite !get_delete_neq by discriminate. reflexivity.
Qed.

Lemma lookup_decoded_fields (seed value : Obj) (k : string) :
  lookup (fold_left (fun r km => if truthy (get value (snd km))
                                 then set r (fst km) (get value (snd km))
                                 else r)
                    viewFormKeyMap seed) k =
  match find (fun km => String.eqb k (fst km)) viewFormKeyMap with
  | Some km =>
      if truthy (get value (snd km)) then Some (get value (snd km))
      else lookup seed k
  | None => lookup seed k
  end.
Proof.
  cbn [fold_left viewFormKeyMap fst snd find].
  rewrite !lookup_cond_set.
  repeat match goal with
         | |- context [String.eqb k ?s] =>
             destruct (String.eqb_spec k s) as [->|?];
             cbn [String.eqb Ascii.eqb Bool.eqb andb fst snd];
             rewrite ?andb_false_r, ?andb_true_r
         end;
    repeat match goal with
           | |- context [truthy ?x] => destruct (truthy x)
           end; reflexivity.
Qed.

Lemma decode_value_idem (p : JsVal) :
  decode_value (decode_value p) = decode_value p.
Proof.
  unfold decode_value. destruct (truthy (own_get p formRangeKey)) eqn:E.
  - reflexivity.
  - now rewrite E.
Qed.

Lemma decode_value_not_nullish (p : JsVal) :
  not_nullish p -> not_nullish (decode_value p).
Proof.
  intros H. unfold decode_value.
  destruct (truthy (own_get p formRangeKey)); auto.
  split; discriminate.
Qed.

Lemma decode_range_step (acc : Obj) (k0 : string) (p : JsVal) :
  lookup acc k0 = Some p -> not_nullish p ->
  exists acc',
    decode_range acc k0 = Ok acc'
    /\ forall k, lookup acc' k =
                 if String.eqb k k0 then Some (decode_value p)
                 else lookup acc k.
Proof.
  intros Hl [Hn Hu]. unfold decode_range, get. rewrite Hl.
  assert (js_get p formRangeKey = Ok (own_get p formRangeKey)) as ->
      by (destruct p; auto; congruence).
  cbn [bind]. unfold decode_value.
  destruct (truthy (own_get p formRangeKey)); eexists; split;
    try reflexivity; intros k;
    destruct (String.eqb_spec k k0) as [->|Hne]; auto.
  - apply lookup_set_eq.
  - now apply lookup_set_neq.
Qed.

(** The range loop of [formValueToView] returns when no property is [null]
    or [undefined], and decodes every property it visits. *)
Lemma foldM_decode_range (ks : list string) (acc : Obj) :
  (forall k, In k ks -> exists p, lookup acc k = Some p /\ not_nullish p) ->
  exists out,
    foldM decode_range ks acc = Ok out
    /\ forall k, lookup out k =
                 if existsb (String.eqb k) ks
                 then option_map decode_value (lookup acc k)
                 else lookup acc k.
Proof.
  revert acc. induction ks as [|k0 ks IH]; intros acc H.
  - exists acc. split; auto.
  - destruct (H k0 (or_introl eq_refl)) as [p [Hp Hnn]].
    destruct (decode_range_step _ _ Hp Hnn) as [acc' [Hstep Hacc']].
    destruct (IH acc') as [out [Hout Hl]].
    { intros k Hin. rewrite Hacc'.
      destruct (String.eqb_spec k k0) as [->|Hne].
      - exists (decode_value p). split; auto.
        now apply decode_value_not_nullish.
      - apply H. now right. }
    exists out. split.
    + cbn [foldM]. rewrite Hstep. exact Hout.
    + intros k. rewrite Hl, Hacc'. cbn [existsb].
      destruct (String.eqb_spec k k0) as [->|Hne]; cbn [orb option_map].
      * rewrite Hp. cbn [option_map]. rewrite decode_value_idem.
        now destruct (existsb (String.eqb k0) ks).
      * reflexivity.
Qed.

(** Decoding the encoding of a plain value or of a range gives the value
    back. *)
Lemma decode_encode_value (p : JsVal) :
  plain_property p \/ range_property p ->
  js_equiv (decode_value (encode_value p)) p.
Proof.
  intros [[Hr [_ [_ Ht]]] | [o [-> [Hr [Hmin [Hmax Hrest]]]]]].
  - unfold encode_value. rewrite Hr. unfold decode_value. rewrite Ht.
    constructor.
  - unfold encode_value. rewrite Hr. cbn.
    apply js_equiv_obj. intros k. cbn [lookup].
    destruct (String.eqb_spec k "min") as [->|N1].
    + unfold get. destruct (lookup o "min"); [|congruence].
      constructor. constructor.
    + destruct (String.eqb_spec k "max") as [->|N2].
      * unfold get. destruct (lookup o "max"); [|congruence].
        constructor. constructor.
      * rewrite (Hrest k N1 N2). constructor.
Qed.

Lemma encode_value_not_nullish (p : JsVal) :
  plain_property p \/ range_property p -> not_nullish (encode_value p).
Proof.
  intros [[Hr [Hn [Hu _]]] | [o [-> [Hr _]]]]; unfold encode_value;
    rewrite Hr; split; auto; discriminate.
Qed.

Lemma Forall_lookup (P : JsVal -> Prop) (o : Obj) (k : string) (p : JsVal) :
  Forall (fun kv => P (snd kv)) o -> lookup o k = Some p -> P p.
Proof.
  induction 1 as [|[k' x] r Hx _ IH]; simpl; try discriminate.
  destruct (String.eqb k k'); auto. intros E. injection E as <-. exact Hx.
Qed.

(** Decoding the form value of a well-formed view, from whatever the result
    was seeded with, provided the seed has no properties or those of the
    view: the properties of the result are those of the view, and every
    field is the one the form value carries, or else that of the seed. *)
Lemma formValueToView_encoded
      (v : View) (ps seed : Obj) (views : option (list View)) :
  wf_view v ps ->
  (if truthy (get (viewToFormValue (Some v)) formViewNameKey)
   then found <- find_view views
                   (get (viewToFormValue (Some v)) formViewNameKey) ;;
        clone_view found
   else Ok []) = Ok seed ->
  lookup seed "properties" = None
  \/ lookup seed "properties" = Some (JObj ps) ->
  exists (d : View) (qs : Obj),
    formValueToView (viewToFormValue (Some v)) views = Ok d
    /\ lookup d "properties" = Some (JObj qs)
    /\ (forall k, opt_rel js_equiv (lookup qs k) (lookup ps k))
    /\ (forall k, k <> "properties" ->
          lookup d k =
          match find (fun km => String.eqb k (fst km)) viewFormKeyMap with
          | Some km =>
              if truthy (get (viewToFormValue (Some v)) (snd km))
              then Some (get (viewToFormValue (Some v)) (snd km))
              else lookup seed k
          | None => lookup seed k
          end).
Proof.
  intros [Hps Hnd Hres Hval _] Hseed Hsp.
  remember (viewToFormValue (Some v)) as F eqn:HF.
  assert (forall fk, In fk form_keys -> lookup ps fk = None) as Hnone.
  { intros fk Hin. apply lookup_None_iff. intros Hk.
    rewrite Forall_forall in Hres. exact (Hres fk Hk Hin). }
  unfold formValueToView. rewrite Hseed. cbn [bind].
  rewrite fold_decode_key.
  remember (fold_left _ viewFormKeyMap seed) as R eqn:HR.
  remember (fold_left delete form_keys F) as VC eqn:HVC.
  assert (lookup R "properties" = lookup seed "properties") as HRp.
  { subst R. now rewrite lookup_decoded_fields. }
  assert (forall k, lookup VC k = option_map encode_value (lookup ps k))
    as HlVC.
  { intros k. subst VC F. rewrite lookup_fold_delete.
    rewrite (lookup_viewToFormValue v k Hps Hres).
    cbn [form_keys viewFormKeyMap map snd existsb].
    destruct (String.eqb_spec k formSearchKey) as [->|N1];
      [cbn [orb]; rewrite Hnone; [reflexivity | simpl; tauto]|].
    destruct (String.eqb_spec k formSortKey) as [->|N2];
      [cbn [orb]; rewrite Hnone; [reflexivity | simpl; tauto]|].
    destruct (String.eqb_spec k formStepKey) as [->|N3];
      [cbn [orb]; rewrite Hnone; [reflexivity | simpl; tauto]|].
    destruct (String.eqb_spec k formPageKey) as [->|N4];
      [cbn [orb]; rewrite Hnone; [reflexivity | simpl; tauto]|].
    destruct (String.eqb_spec k formColumnsKey) as [->|N5];
      [cbn [orb]; rewrite Hnone; [reflexivity | simpl; tauto]|].
    destruct (String.eqb_spec k formViewNameKey) as [->|N6];
      [cbn [orb]; rewrite Hnone; [reflexivity | simpl; tauto]|].
    reflexivity. }
  assert (NoDup (keys VC)) as HndVC.
  { subst VC F. apply NoDup_keys_fold_delete.
    now apply (NoDup_keys_viewToFormValue v Hps). }
  remember (assign (spread (js_or (get R "properties") (JObj []))) VC)
    as P0 eqn:HP0.
  assert (forall k, lookup P0 k = option_map encode_value (lookup ps k))
    as HlP0.
  { intros k. subst P0. rewrite lookup_assign, (lookup_rev VC k HndVC), HlVC.
    destruct (lookup ps k) as [q|] eqn:Eq; cbn [option_map]; auto.
    unfold get. rewrite HRp.
    destruct Hsp as [-> | ->]; cbn [js_or truthy spread]; auto. }
  destruct (foldM_decode_range (keys P0) P0) as [qs [Hqs Hlqs]].
  { intros k Hin.
    destruct (lookup P0 k) as [q|] eqn:Eq;
      [|apply lookup_None_iff in Eq; contradiction].
    exists q. split; auto.
    rewrite HlP0 in Eq. destruct (lookup ps k) as [q0|] eqn:E0;
      [|discriminate].
    injection Eq as <-. apply encode_value_not_nullish.
    exact (@Forall_lookup (fun p => plain_property p \/ range_property p)
             ps k q0 Hval E0). }
  rewrite Hqs. cbn [bind].
  exists (set R "properties" (JObj qs)), qs.
  split; [reflexivity|]. split; [apply lookup_set_eq|]. split.
  - intros k. rewrite Hlqs.
    assert ((if existsb (String.eqb k) (keys P0)
             then option_map decode_value (lookup P0 k) else lookup P0 k)
            = option_map decode_value (lookup P0 k)) as ->.
    { destruct (existsb (String.eqb k) (keys P0)) eqn:E; auto.
      now rewrite (lookup_existsb _ _ E). }
    rewrite HlP0. destruct (lookup ps k) as [q|] eqn:Eq; cbn [option_map].
    + constructor. apply decode_encode_value.
      exact (@Forall_lookup (fun p => plain_property p \/ range_property p)
               ps k q Hval Eq).
    + constructor.
  - intros k Hk. rewrite lookup_set_neq by auto.
    subst R. apply lookup_decoded_fields.
Qed.

Lemma get_viewToFormValue (v : View) (ps : Obj) :
  lookup v "properties" = Some (JObj ps) ->
  Forall (fun k => ~ In k form_keys) (keys ps) ->
  let F := viewToFormValue (Some v) in
  let field f := if truthy (get v f) then get v f else JUndefined in
  get F formSearchKey
  = (if truthy (get v "search") then get v "search" else JStr "")
  /\ get F formSortKey = field "sort"
  /\ get F formStepKey = field "step"
  /\ get F formPageKey = field "page"
  /\ get F formColumnsKey = field "columns"
  /\ get F formViewNameKey
     = (if truthy (get v "name") then get v "name" else field "view").
Proof.
  intros Hps Hres F field. unfold F, field.
  pose proof (fun k => lookup_viewToFormValue v k Hps Hres) as Hl.
  split; [|split; [|split; [|split; [|split]]]];
    unfold get at 1; rewrite Hl; cbn;
    repeat match goal with
           | |- context [truthy ?x] => destruct (truthy x)
           end; reflexivity.
Qed.

Lemma truthy_get_lookup (o : Obj) (k : string) :
  truthy (get o k) = true -> lookup o k = Some (get o k).
Proof.
  unfold get. destruct (lookup o k); auto. discriminate.
Qed.

(** A field that the form value carries when it is truthy comes back as it
    was, whether the result was seeded with the view or the field is absent
    or truthy. *)
Lemma field_round_trip (v : View) (f : string) (x y : JsVal)
      (fallback : option JsVal) :
  x = (if truthy (get v f) then get v f else y) ->
  truthy y = false ->
  fallback = lookup v f \/ (fallback = None /\ absent_or_truthy v f) ->
  opt_rel js_equiv (if truthy x then Some x else fallback) (lookup v f).
Proof.
  intros -> Hy Hf. destruct (truthy (get v f)) eqn:Ht.
  - rewrite Ht, (truthy_get_lookup _ _ Ht). constructor. constructor.
  - rewrite Hy. destruct Hf as [-> | [-> [Ha | Ha]]].
    + destruct (lookup v f); constructor. constructor.
    + rewrite Ha. constructor.
    + congruence.
Qed.

Lemma unnamed_view_lookup (v : View) (k : string) :
  unnamed_view v -> ~ In k unnamed_fields -> lookup v k = None.
Proof.
  intros Hu Hk. apply lookup_None_iff. intros Hin.
  unfold unnamed_view in Hu. rewrite Forall_forall in Hu. auto.
Qed.

(** C1, as the code has it.  For a view [v] of the data model (see
    [wf_view]): if [v] has no name, no [view] field and no field outside
    the model, decoding its encoding returns a view structurally equal to
    [v], whatever [views] is; if [v] has a name and is the view that
    [views] holds under that name, decoding its encoding returns a view
    structurally equal to [v] with the field [view] set to the name.
    Properties whose value is an empty array come back like the others. *)
Theorem decode_encode_round_trip
        (v : View) (ps : Obj) (views : option (list View)) :
  wf_view v ps ->
  unnamed_view v \/ named_view_of views v ->
  exists d : View,
    formValueToView (viewToFormValue (Some v)) views = Ok d
    /\ js_equiv (JObj d) (JObj (decoded_view v)).
Proof.
  intros Hwf Hcase.
  pose proof Hwf as [Hps Hnd Hres Hval Hfld].
  pose proof (get_viewToFormValue v Hps Hres) as Hget. cbv zeta in Hget.
  destruct Hget as [Gsearch [Gsort [Gstep [Gpage [Gcols Gview]]]]].
  inversion Hfld as [|? ? Asearch Hf1]; subst.
  inversion Hf1 as [|? ? Asort Hf2]; subst.
  inversion Hf2 as [|? ? Astep Hf3]; subst.
  inversion Hf3 as [|? ? Apage Hf4]; subst.
  inversion Hf4 as [|? ? Acols _]; subst.
  clear Hfld Hf1 Hf2 Hf3 Hf4.
  destruct Hcase as [Hun | [Hname [Hfind Hclean]]].
  - (* no name *)
    assert (get v "name" = JUndefined) as Hn.
    { unfold get. rewrite (@unnamed_view_lookup v "name" Hun); auto.
      cbn. intuition discriminate. }
    assert (lookup v "view" = None) as Hlv.
    { apply (@unnamed_view_lookup v "view" Hun). cbn. intuition discriminate. }
    assert (get v "view" = JUndefined) as Hv by (unfold get; now rewrite Hlv).
    rewrite Hn, Hv in Gview. cbn in Gview.
    destruct (@formValueToView_encoded v ps [] views Hwf)
      as [d [qs [Hd [Hdp [Hqs Hdk]]]]].
    { now rewrite Gview. }
    { now left. }
    exists d. split; [exact Hd|].
    unfold decoded_view. rewrite Hn. cbn [truthy].
    apply js_equiv_obj. intros k.
    case_key k "properties".
    { rewrite Hdp, Hps. constructor. now apply js_equiv_obj. }
    rewrite (Hdk k E). cbn [find viewFormKeyMap fst snd lookup].
    case_key k "search".
    { eapply field_round_trip; [exact Gsearch | reflexivity | auto]. }
    case_key k "sort".
    { eapply field_round_trip; [exact Gsort | reflexivity | auto]. }
    case_key k "step".
    { eapply field_round_trip; [exact Gstep | reflexivity | auto]. }
    case_key k "page".
    { eapply field_round_trip; [exact Gpage | reflexivity | auto]. }
    case_key k "columns".
    { eapply field_round_trip; [exact Gcols | reflexivity | auto]. }
    case_key k "view".
    { cbn [snd]. rewrite Gview, Hlv. constructor. }
    rewrite (@unnamed_view_lookup v k Hun); [constructor|].
    cbn. intuition congruence.
  - (* a name, and the view found under it *)
    rewrite Hname in Gview.
    destruct (@formValueToView_encoded v ps v views Hwf)
      as [d [qs [Hd [Hdp [Hqs Hdk]]]]].
    { rewrite Gview, Hname, Hfind. cbn [bind].
      now rewrite clone_view_found, (@JSON_props_clean v Hclean). }
    { now right. }
    exists d. split; [exact Hd|].
    unfold decoded_view. rewrite Hname.
    apply js_equiv_obj. intros k.
    case_key k "view".
    { rewrite Hdk by discriminate. cbn [find viewFormKeyMap fst snd].
      cbn. rewrite Gview, Hname, lookup_set_eq. constructor. constructor. }
    rewrite lookup_set_neq by auto.
    case_key k "properties".
    { rewrite Hdp, Hps. constructor. now apply js_equiv_obj. }
    rewrite (Hdk k E0). cbn [find viewFormKeyMap fst snd].
    case_key k "search".
    { eapply field_round_trip; [exact Gsearch | reflexivity | auto]. }
    case_key k "sort".
    { eapply field_round_trip; [exact Gsort | reflexivity | auto]. }
    case_key k "step".
    { eapply field_round_trip; [exact Gstep | reflexivity | auto]. }
    case_key k "page".
    { eapply field_round_trip; [exact Gpage | reflexivity | auto]. }
    case_key k "columns".
    { eapply field_round_trip; [exact Gcols | reflexivity | auto]. }
    apply String.eqb_neq in E. rewrite E.
    destruct (lookup v k); constructor. constructor.
Qed.

Lemma decode_encode_round_trip_witness :
  (exists d : View,
      formValueToView
        (viewToFormValue
           (Some [("properties",
                   JObj [("age", JObj [("min", JNum 1); ("max", JNum 5)]);
                         ("color", JArr []);
                         ("size", JStr "M")]);
                  ("search", JStr "shoes");
                  ("page", JNum 2)]))
        None = Ok d
      /\ js_equiv (JObj d)
           (JObj (decoded_view
                    [("properties",
                      JObj [("age", JObj [("min", JNum 1); ("max", JNum 5)]);
                            ("color", JArr []);
                            ("size", JStr "M")]);
                     ("search", JStr "shoes");
                     ("page", JNum 2)])))
  /\ (exists d : View,
         formValueToView (viewToFormValue (Some view_A)) (Some [view_A])
         = Ok d
         /\ js_equiv (JObj d) (JObj (decoded_view view_A))).
Proof.
  split.
  - apply (@decode_encode_round_trip _
             [("age", JObj [("min", JNum 1); ("max", JNum 5)]);
              ("color", JArr []);
              ("size", JStr "M")]).
    + constructor.
      * reflexivity.
      * repeat constructor; simpl; intuition discriminate.
      * repeat constructor; simpl; intuition discriminate.
      * constructor; [|constructor; [|constructor; [|constructor]]].
        -- right. eexists. split; [reflexivity|].
           split; [reflexivity|]. split; [discriminate|].
           split; [discriminate|].
           intros k Hmin Hmax. simpl.
           apply String.eqb_neq in Hmin, Hmax. now rewrite Hmin, Hmax.
        -- left. repeat split; discriminate.
        -- left. repeat split; discriminate.
      * repeat constructor;
          first [ left; reflexivity | right; reflexivity ].
    + left. repeat constructor; simpl; tauto.
  - apply (@decode_encode_round_trip _ [("status", JStr "open")]).
    + constructor.
      * reflexivity.
      * repeat constructor; simpl; intuition discriminate.
      * repeat constructor; simpl; intuition discriminate.
      * constructor; [|constructor].
        left. repeat split; discriminate.
      * repeat constructor; left; reflexivity.
    + right. repeat split.
Defined.

(** C1, the claim as stated fails: the view named "A" is a view without
    any empty-array property and is present in [views], yet decoding its
    encoding returns a view with one field more, [view], and so not
    structurally equal to it. *)
Lemma named_view_round_trip_adds_view_field :
  formValueToView (viewToFormValue (Some view_A)) (Some [view_A])
  = Ok [("name", JStr "A");
        ("properties", JObj [("status", JStr "open")]);
        ("view", JStr "A")]
  /\ ~ (exists d : View,
           formValueToView (viewToFormValue (Some view_A)) (Some [view_A])
           = Ok d
           /\ js_equiv (JObj d) (JObj view_A)).
Proof.
  split; [reflexivity|].
  intros [d [Hd He]]. cbv in Hd. injection Hd as <-.
  inversion He as [ | | xs ys Hall]; subst.
  specialize (Hall "view"). cbn in Hall. inversion Hall.
Qed.

(* ================================================================= *)
(** ** Further properties of [viewToFormValue] *)

(** The properties that [viewToFormValue] starts from. *)
Lemma lookup_encode_keys (view : option View) (E1 : Obj) (k : string) :
  lookup (fold_left (encode_key view) viewFormKeyMap E1) k =
  if truthy (view_get view "view") && String.eqb k formViewNameKey
  then Some (view_get view "view")
  else if truthy (view_get view "columns") && String.eqb k formColumnsKey
  then Some (view_get view "columns")
  else if truthy (view_get view "page") && String.eqb k formPageKey
  then Some (view_get view "page")
  else if truthy (view_get view "step") && String.eqb k formStepKey
  then Some (view_get view "step")
  else if truthy (view_get view "sort") && String.eqb k formSortKey
  then Some (view_get view "sort")
  else if truthy (view_get view "search") && String.eqb k formSearchKey
  then Some (view_get view "search")
  else lookup E1 k.
Proof.
  cbn [fold_left viewFormKeyMap]. unfold encode_key. cbn [fst snd].
  now rewrite !lookup_cond_set.
Qed.

(** The form value of any view, key by key, in terms of the value [r2]
    that the loop over the reserved keys has built. *)
Lemma lookup_viewToFormValue_any (view : option View) (k : string) :
  let props := spread (js_or (view_get view "properties") (JObj [])) in
  let r2 := fold_left (encode_key view) viewFormKeyMap
                      (fold_left encode_range (keys props) props) in
  lookup (viewToFormValue view) k =
  if truthy (view_get view "columns") && String.eqb k formColumnsKey
  then Some (view_get view "columns")
  else if truthy (view_get view "name") && String.eqb k formViewNameKey
  then Some (view_get view "name")
  else if truthy (view_get view "sort") && String.eqb k formSortKey
  then Some (view_get view "sort")
  else if negb (truthy (get r2 formSearchKey)) && String.eqb k formSearchKey
  then Some (JStr "")
  else lookup r2 k.
Proof.
  intros props r2. unfold viewToFormValue. fold props. fold r2.
  cbv zeta. now rewrite !lookup_cond_set, lookup_cond_keep.
Qed.

Lemma not_form_key (k : string) :
  ~ In k form_keys ->
  String.eqb k formSearchKey = false /\ String.eqb k formSortKey = false
  /\ String.eqb k formStepKey = false /\ String.eqb k formPageKey = false
  /\ String.eqb k formColumnsKey = false
  /\ String.eqb k formViewNameKey = false.
Proof.
  intros H. repeat split; apply String.eqb_neq; intros ->; apply H;
    cbn; tauto.
Qed.

Lemma is_range_encode_value (p : JsVal) : is_range (encode_value p) = false.
Proof.
  unfold encode_value. destruct (is_range p) eqn:E; auto.
Qed.

(** X1. Whatever the view is ([undefined] included), its encoding has the
    key [_search], and the value there is the empty string or a truthy
    value. *)
Theorem viewToFormValue_always_has_search (view : option View) :
  exists x : JsVal,
    lookup (viewToFormValue view) formSearchKey = Some x
    /\ (x = JStr "" \/ truthy x = true).
Proof.
  pose proof (lookup_viewToFormValue_any view formSearchKey) as H.
  cbv zeta in H. rewrite H. clear H.
  cbn [String.eqb formSearchKey formColumnsKey formViewNameKey formSortKey
       Ascii.eqb Bool.eqb].
  rewrite !andb_false_r, andb_true_r.
  match goal with
  | |- context [truthy (get ?r formSearchKey)] =>
      destruct (truthy (get r formSearchKey)) eqn:E
  end; cbn [negb].
  - eexists. split; [apply (truthy_get_lookup _ _ E) | now right].
  - eexists. split; [reflexivity | now left].
Qed.

(** X2. Under a key that is not reserved, the encoding of a view holds
    exactly what [view.properties] holds under that key: wrapped as
    [{_range: [min, max]}] when the value has a numeric [min] or [max],
    unchanged otherwise, and nothing when the view has no such property.
    No such key of the encoding is left with a numeric [min] or [max]. *)
Theorem viewToFormValue_carries_properties
        (view : option View) (k : string) :
  ~ In k form_keys ->
  lookup (viewToFormValue view) k
  = option_map
      (fun p => if is_number (own_get p "min") || is_number (own_get p "max")
                then JObj [(formRangeKey,
                            JArr [own_get p "min"; own_get p "max"])]
                else p)
      (lookup (spread (js_or (view_get view "properties") (JObj []))) k)
  /\ is_number (own_get (get (viewToFormValue view) k) "min") = false
  /\ is_number (own_get (get (viewToFormValue view) k) "max") = false.
Proof.
  intros Hk. destruct (not_form_key Hk) as [N1 [N2 [N3 [N4 [N5 N6]]]]].
  assert (lookup (viewToFormValue view) k
          = option_map encode_value
              (lookup (spread (js_or (view_get view "properties") (JObj [])))
                      k)) as Hl.
  { pose proof (lookup_viewToFormValue_any view k) as H.
    cbv zeta in H. rewrite H, lookup_encode_keys.
    rewrite N1, N2, N3, N4, N5, N6, !andb_false_r.
    apply lookup_encoded_properties. }
  split; [exact Hl|].
  apply orb_false_iff. change (is_range (get (viewToFormValue view) k) = false).
  unfold get. rewrite Hl.
  destruct (lookup (spread (js_or (view_get view "properties") (JObj []))) k);
    cbn [option_map]; auto.
  apply is_range_encode_value.
Qed.

Lemma viewToFormValue_carries_properties_witness :
  lookup (viewToFormValue
            (Some [("properties",
                    JObj [("age", JObj [("min", JNum 18)]);
                          ("size", JStr "M")])]))
         "age"
  = Some (JObj [("_range", JArr [JNum 18; JUndefined])]).
Proof.
  destruct (@viewToFormValue_carries_properties
              (Some [("properties",
                      JObj [("age", JObj [("min", JNum 18)]);
                            ("size", JStr "M")])]) "age") as [H _].
  - cbn. intuition discriminate.
  - exact H.
Defined.

Lemma lookup_view_key (view : option View) :
  lookup (viewToFormValue view) formViewNameKey =
  if truthy (view_get view "name") then Some (view_get view "name")
  else if truthy (view_get view "view") then Some (view_get view "view")
  else option_map encode_value
         (lookup (spread (js_or (view_get view "properties") (JObj [])))
                 formViewNameKey).
Proof.
  pose proof (lookup_viewToFormValue_any view formViewNameKey) as H.
  cbv zeta in H. rewrite H, lookup_encode_keys. clear H.
  cbn [String.eqb formSearchKey formColumnsKey formViewNameKey formSortKey
       formPageKey formStepKey Ascii.eqb Bool.eqb].
  rewrite !andb_false_r, !andb_true_r.
  destruct (truthy (view_get view "name")); auto.
  destruct (truthy (view_get view "view")); auto.
  apply lookup_encoded_properties.
Qed.

(* ================================================================= *)
(** ** Further properties of [clearEmpty] and [resetPage] *)

Lemma fold_clear_nothing (ks : list string) (acc : Obj) :
  (forall k, is_empty_array (get acc k) = false) ->
  fold_left clear_key ks acc = acc.
Proof.
  intros H. induction ks as [|k0 ks IH]; simpl; auto.
  unfold clear_key at 2. now rewrite H.
Qed.

Lemma clearEmpty_leaves_no_empty_array (o : Obj) (k : string) :
  is_empty_array (get (clearEmpty o) k) = false.
Proof.
  rewrite get_clearEmpty.
  destruct (is_empty_array (get o k)) eqn:E; auto.
Qed.

(** X4. After [clearEmpty] no key holds an empty array, and running
    [clearEmpty] again changes nothing. *)
Theorem clearEmpty_idempotent (o : Obj) :
  (forall k, is_empty_array (get (clearEmpty o) k) = false)
  /\ clearEmpty (clearEmpty o) = clearEmpty o.
Proof.
  split.
  - apply clearEmpty_leaves_no_empty_array.
  - unfold clearEmpty at 1. apply fold_clear_nothing.
    apply clearEmpty_leaves_no_empty_array.
Qed.

Lemma delete_absent (o : Obj) (k : string) :
  ~ In k (keys o) -> delete o k = o.
Proof.
  induction o as [|[k' x] r IH]; simpl; auto.
  intros H. destruct (String.eqb_spec k k') as [->|Hne].
  - exfalso. apply H. now left.
  - f_equal. apply IH. intros Hin. apply H. now right.
Qed.

Lemma fold_clear_cons (ks : list string) (k : string) (x : JsVal) (r : Obj) :
  ~ In k ks ->
  fold_left clear_key ks ((k, x) :: r) = (k, x) :: fold_left clear_key ks r.
Proof.
  revert r. induction ks as [|k0 ks IH]; intros r H; simpl; auto.
  assert (k0 <> k) as Hne by (intros ->; apply H; now left).
  assert (clear_key ((k, x) :: r) k0 = (k, x) :: clear_key r k0) as ->.
  { unfold clear_key, get. simpl.
    apply String.eqb_neq in Hne. rewrite Hne.
    now destruct (is_empty_array _). }
  apply IH. intros Hin. apply H. now right.
Qed.

(** X5. On an object (distinct keys) [clearEmpty] is a filter: the
    entries whose value is not an empty array stay, in their order, with
    their values. *)
Theorem clearEmpty_keeps_order (o : Obj) :
  NoDup (keys o) ->
  clearEmpty o = filter (fun kv => negb (is_empty_array (snd kv))) o.
Proof.
  unfold clearEmpty. induction o as [|[k x] r IH]; auto.
  intros Hnd. inversion Hnd as [|? ? Hnin Hnd']; subst.
  cbn [keys map fst fold_left filter snd].
  unfold clear_key at 2. unfold get. cbn [lookup].
  rewrite String.eqb_refl.
  destruct (is_empty_array x) eqn:E; cbn [negb].
  - cbn [delete]. rewrite String.eqb_refl, (delete_absent _ _ Hnin).
    now apply IH.
  - rewrite (fold_clear_cons _ _ _ _ Hnin). f_equal. now apply IH.
Qed.

Lemma clearEmpty_keeps_order_witness :
  clearEmpty [("color", JArr []); ("size", JStr "M");
              ("tags", JArr [JStr "a"]); ("brand", JArr [])]
  = [("size", JStr "M"); ("tags", JArr [JStr "a"])].
Proof.
  apply (clearEmpty_keeps_order
           [("color", JArr []); ("size", JStr "M");
            ("tags", JArr [JStr "a"]); ("brand", JArr [])]).
  repeat constructor; simpl; intuition discriminate.
Defined.

Lemma set_set (o : Obj) (k : string) (x : JsVal) :
  set (set o k x) k x = set o k x.
Proof.
  induction o as [|[k' y] r IH]; simpl.
  - now rewrite String.eqb_refl.
  - destruct (String.eqb k k') eqn:E; simpl.
    + now rewrite String.eqb_refl.
    + now rewrite E, IH.
Qed.

Section ResetPageEdges.

Variable StringToNumber : string -> option Z.

(** X6. [resetPage] leaves [next] as it is when [prev] has no [_page], and
    when [prev._page] is a number not greater than 1 (page 1, 0, a
    negative page); and applying it a second time changes nothing. *)
Theorem resetPage_keeps_first_page (next prev : Obj) :
  (lookup prev formPageKey = None ->
   resetPage StringToNumber next prev = next)
  /\ (forall n : Z,
         get prev formPageKey = JNum n -> n <= 1 ->
         resetPage StringToNumber next prev = next)
  /\ resetPage StringToNumber (resetPage StringToNumber next prev) prev
     = resetPage StringToNumber next prev.
Proof.
  split; [|split].
  - intros H. unfold resetPage, get. now rewrite H.
  - intros n Hn Hle. rewrite (resetPage_number _ _ _ Hn).
    assert ((1 <? n) = false) as -> by (apply Z.ltb_ge; lia). reflexivity.
  - unfold resetPage.
    destruct (truthy (get prev formPageKey)
              && js_gt StringToNumber (get prev formPageKey) 1); auto.
    apply set_set.
Qed.

End ResetPageEdges.

Lemma resetPage_keeps_first_page_witness :
  resetPage (fun _ => None) [("_page", JNum 2)] [("q", JStr "a")]
  = [("_page", JNum 2)]
  /\ resetPage (fun _ => None) [("_page", JNum 2)] [("_page", JNum 1)]
     = [("_page", JNum 2)].
Proof.
  split.
  - apply (proj1 (resetPage_keeps_first_page (fun _ => None)
                    [("_page", JNum 2)] [("q", JStr "a")])). reflexivity.
  - apply (proj1 (proj2 (resetPage_keeps_first_page (fun _ => None)
                           [("_page", JNum 2)] [("_page", JNum 1)])) 1);
      [reflexivity | lia].
Defined.

(** X3. The key [_view] of an encoding holds the [name] of the view when
    it is truthy; failing that the field [view] of the view when it is
    truthy; failing both, whatever property of that name the view has. *)
Theorem viewToFormValue_view_key (view : option View) :
  lookup (viewToFormValue view) formViewNameKey =
  if truthy (view_get view "name") then Some (view_get view "name")
  else if truthy (view_get view "view") then Some (view_get view "view")
  else option_map encode_value
         (lookup (spread (js_or (view_get view "properties") (JObj [])))
                 formViewNameKey).
Proof. exact (lookup_view_key view). Qed.

(* ================================================================= *)
(** ** Further properties of [normalizeValue] *)

Lemma strict_eq_eq (a b : JsVal) : strict_eq a b = true -> a = b.
Proof.
  destruct a, b; simpl; try discriminate; auto.
  - intros H. apply Bool.eqb_prop in H. now subst.
  - intros H. apply Z.eqb_eq in H. now subst.
  - intros H. apply String.eqb_eq in H. now subst.
Qed.

(** The encoding of the view found under a truthy name carries that
    name. *)
Lemma get_found_view_name (l : list View) (n : JsVal) (v : View) :
  truthy n = true ->
  find (fun v => strict_eq (get v "name") n) l = Some v ->
  get (viewToFormValue (Some v)) formViewNameKey = n.
Proof.
  intros Ht Hf. apply find_some in Hf. destruct Hf as [_ Hn].
  apply strict_eq_eq in Hn. unfold get at 1. rewrite lookup_view_key.
  cbn [view_get]. now rewrite Hn, Ht.
Qed.

Lemma clearEmpty_clearEmpty (o : Obj) : clearEmpty (clearEmpty o) = clearEmpty o.
Proof.
  unfold clearEmpty at 1. apply fold_clear_nothing.
  apply clearEmpty_leaves_no_empty_array.
Qed.

Lemma clearEmpty_delete (o : Obj) (k : string) :
  clearEmpty (delete (clearEmpty o) k) = delete (clearEmpty o) k.
Proof.
  unfold clearEmpty at 1. apply fold_clear_nothing. intros k'.
  destruct (String.eqb_spec k' k) as [->|Hne].
  - now rewrite get_delete_eq.
  - rewrite get_delete_neq by auto. apply clearEmpty_leaves_no_empty_array.
Qed.

(** X7. With a collection of views at hand, normalising is idempotent:
    [normalizeValue] returns, and normalising its result against the same
    previous value returns that result again. *)
Theorem normalizeValue_idempotent (next prev : Obj) (l : list View) :
  exists r : Obj,
    normalizeValue next prev (Some l) = Ok r
    /\ normalizeValue r prev (Some l) = Ok r.
Proof.
  destruct (truthy (get next formViewNameKey)) eqn:Ht;
    [destruct (strict_eq (get next formViewNameKey)
                         (get prev formViewNameKey)) eqn:He|].
  - (* a view is named and it is the previous one *)
    pose proof (edit_branch_characterised next prev l (or_intror He)) as H1.
    pose proof (lookup_clearEmpty_view next prev (or_intror He)) as Hlv.
    rewrite Ht in H1.
    destruct (existsb (diverges (clearEmpty next) (named_encoding next l))
                      (keys (named_encoding next l))) eqn:Ed.
    + exists (delete (clearEmpty next) formViewNameKey).
      split; [exact H1|].
      rewrite edit_branch_characterised
        by (left; now rewrite get_delete_eq).
      now rewrite get_delete_eq, clearEmpty_delete.
    + exists (clearEmpty next). split; [exact H1|].
      assert (get (clearEmpty next) formViewNameKey
              = get next formViewNameKey) as Hg
          by (unfold get; now rewrite Hlv).
      rewrite edit_branch_characterised by (right; now rewrite Hg).
      rewrite Hg, Ht. unfold named_encoding at 1 2.
      rewrite !clearEmpty_clearEmpty. fold (named_encoding next l).
      now rewrite Ed.
  - (* a view is named and it is another one *)
    rewrite normalizeValue_switch by auto.
    cbn [find_view bind].
    destruct (find (fun v => strict_eq (get v "name")
                                       (get next formViewNameKey)) l)
      as [v|] eqn:Hf.
    + exists (viewToFormValue (Some v)). split; [reflexivity|].
      pose proof (get_found_view_name l _ Ht Hf) as Hn.
      unfold normalizeValue, View in *. rewrite Hn, Ht, He.
      cbn [andb negb find_view bind]. now rewrite Hf.
    + exists (viewToFormValue None). split; reflexivity.
  - (* no view is named *)
    pose proof (edit_branch_characterised next prev l (or_introl Ht)) as H1.
    pose proof (lookup_clearEmpty_view next prev (or_introl Ht)) as Hlv.
    rewrite Ht in H1.
    exists (clearEmpty next). split; [exact H1|].
    assert (get (clearEmpty next) formViewNameKey
            = get next formViewNameKey) as Hg
        by (unfold get; now rewrite Hlv).
    rewrite edit_branch_characterised by (left; now rewrite Hg).
    now rewrite Hg, Ht, clearEmpty_clearEmpty.
Qed.

(** X8. With a collection of views at hand, the value [normalizeValue]
    returns has no [_view], or the very [_view] of [next]: a name is
    dropped or kept, never replaced by another. *)
Theorem normalizeValue_keeps_view_name (next prev : Obj) (l : list View) :
  exists r : Obj,
    normalizeValue next prev (Some l) = Ok r
    /\ (lookup r formViewNameKey = None
        \/ get r formViewNameKey = get next formViewNameKey).
Proof.
  destruct (truthy (get next formViewNameKey)) eqn:Ht;
    [destruct (strict_eq (get next formViewNameKey)
                         (get prev formViewNameKey)) eqn:He|].
  - rewrite (edit_branch_characterised next prev l (or_intror He)), Ht.
    pose proof (lookup_clearEmpty_view next prev (or_intror He)) as Hlv.
    destruct (existsb _ _); eexists; (split; [reflexivity|]).
    + left. apply lookup_delete_eq.
    + right. unfold get. now rewrite Hlv.
  - rewrite normalizeValue_switch by auto. cbn [find_view bind].
    eexists. split; [reflexivity|].
    destruct (find (fun v => strict_eq (get v "name")
                                       (get next formViewNameKey)) l)
      as [v|] eqn:Hf.
    + right. exact (get_found_view_name l _ Ht Hf).
    + left. reflexivity.
  - rewrite (edit_branch_characterised next prev l (or_introl Ht)), Ht.
    pose proof (lookup_clearEmpty_view next prev (or_introl Ht)) as Hlv.
    eexists. split; [reflexivity|]. right. unfold get. now rewrite Hlv.
Qed.

(** X9. Without a collection of views ([views] is [undefined]),
    [normalizeValue] throws a [TypeError] exactly when [next._view] is
    truthy and otherwise returns [next] without its empty arrays;
    [formValueToView] throws a [TypeError] when [value._view] is truthy,
    and when it is falsy never looks at [views]. *)
Theorem no_views_error_behaviour (next prev value : Obj) :
  normalizeValue next prev None
  = (if truthy (get next formViewNameKey)
     then Throw TypeError else Ok (clearEmpty next))
  /\ (truthy (get value formViewNameKey) = true ->
      formValueToView value None = Throw TypeError)
  /\ (truthy (get value formViewNameKey) = false ->
      forall views, formValueToView value views = formValueToView value None).
Proof.
  split; [|split].
  - unfold normalizeValue.
    destruct (truthy (get next formViewNameKey)) eqn:Ht; cbn [andb].
    + destruct (strict_eq (get next formViewNameKey)
                          (get prev formViewNameKey)) eqn:He; cbn [negb].
      * rewrite get_clearEmpty, (strict_eq_not_empty_array _ _ He), Ht.
        reflexivity.
      * reflexivity.
    + now rewrite get_clearEmpty, (falsy_not_empty_array _ Ht), Ht.
  - apply formValueToView_no_views.
  - intros Hf views0. unfold formValueToView. now rewrite Hf.
Qed.

Lemma no_views_error_behaviour_witness :
  formValueToView [("_view", JStr "A"); ("q", JStr "x")] None
  = Throw TypeError
  /\ formValueToView [("q", JStr "x")] (Some [view_A])
     = formValueToView [("q", JStr "x")] None.
Proof.
  destruct (no_views_error_behaviour [] []
              [("_view", JStr "A"); ("q", JStr "x")]) as [_ [H1 _]].
  destruct (no_views_error_behaviour [] [] [("q", JStr "x")])
    as [_ [_ H2]].
  split; [apply H1 | apply H2]; reflexivity.
Defined.

(* ================================================================= *)
(** ** Further properties of [formValueToView] *)

Lemma is_nullish_not (p : JsVal) : is_nullish p = false <-> not_nullish p.
Proof.
  unfold not_nullish. destruct p; simpl; intuition congruence.
Qed.

(** The range loop throws as soon as a key it visits holds [null] or
    [undefined]. *)
Lemma foldM_decode_range_throws (ks : list string) (acc : Obj) :
  (exists k p, In k ks /\ lookup acc k = Some p /\ is_nullish p = true) ->
  foldM decode_range ks acc = Throw TypeError.
Proof.
  revert acc. induction ks as [|k0 ks IH]; intros acc [k [p [Hin [Hl Hp]]]].
  - destruct Hin.
  - cbn [foldM].
    destruct (lookup acc k0) as [p0|] eqn:E0.
    + destruct (is_nullish p0) eqn:Ep0.
      * unfold decode_range, get. rewrite E0.
        destruct p0; try discriminate; reflexivity.
      * apply is_nullish_not in Ep0.
        destruct (decode_range_step _ _ E0 Ep0) as [acc' [Hstep Hacc']].
        rewrite Hstep. cbn [bind]. apply IH.
        assert (k <> k0) as Hne.
        { intros ->. rewrite E0 in Hl. injection Hl as ->.
          apply is_nullish_not in Ep0. congruence. }
        exists k, p. split; [|split]; auto.
        -- destruct Hin as [->|Hin]; [congruence | exact Hin].
        -- rewrite Hacc'. apply String.eqb_neq in Hne. now rewrite Hne.
    + unfold decode_range, get. now rewrite E0.
Qed.

Section Decoding.

Variables (value seed : Obj) (views : option (list View)).

Hypothesis Hdistinct : NoDup (keys value).

Hypothesis Hseed :
  (if truthy (get value formViewNameKey)
   then found <- find_view views (get value formViewNameKey) ;;
        clone_view found
   else Ok []) = Ok seed.

Let base : Obj := spread (js_or (get seed "properties") (JObj [])).

Let merged : Obj :=
  assign base (fold_left delete form_keys value).

Lemma lookup_merged (k : string) :
  lookup merged k = merged_property value base k.
Proof.
  unfold merged, merged_property, is_form_key.
  rewrite lookup_assign, lookup_rev, lookup_fold_delete; auto.
  now apply NoDup_keys_fold_delete.
Qed.

Lemma formValueToView_unfolded :
  formValueToView value views =
  (properties <- foldM decode_range (keys merged) merged ;;
   Ok (set (fold_left
              (fun r km => if truthy (get value (snd km))
                           then set r (fst km) (get value (snd km)) else r)
              viewFormKeyMap seed)
           "properties" (JObj properties))).
Proof.
  unfold formValueToView. rewrite Hseed. cbn [bind].
  rewrite fold_decode_key.
  assert (get (fold_left
                 (fun r km => if truthy (get value (snd km))
                              then set r (fst km) (get value (snd km))
                              else r) viewFormKeyMap seed) "properties"
          = get seed "properties") as Hp.
  { unfold get at 1. rewrite lookup_decoded_fields. reflexivity. }
  rewrite Hp. reflexivity.
Qed.

(** When nothing that is merged into the properties is [null] or
    [undefined], [formValueToView] returns, and the view it returns is
    described field by field and property by property. *)
Lemma formValueToView_returns :
  (forall k p, merged_property value base k = Some p -> not_nullish p) ->
  exists (d : View) (qs : Obj),
    formValueToView value views = Ok d
    /\ lookup d "properties" = Some (JObj qs)
    /\ (forall k, lookup qs k
                  = option_map decode_value (merged_property value base k))
    /\ (forall k, k <> "properties" ->
                  lookup d k = decoded_field value seed k).
Proof.
  intros Hnn. rewrite formValueToView_unfolded.
  destruct (foldM_decode_range (keys merged) merged) as [qs [Hqs Hlqs]].
  { intros k Hin.
    destruct (lookup merged k) as [q|] eqn:Eq;
      [|apply lookup_None_iff in Eq; contradiction].
    exists q. split; auto. rewrite lookup_merged in Eq. eauto. }
  rewrite Hqs. cbn [bind]. eexists. exists qs.
  split; [reflexivity|]. split; [apply lookup_set_eq|]. split.
  - intros k. rewrite Hlqs, <- lookup_merged.
    destruct (existsb (String.eqb k) (keys merged)) eqn:E; auto.
    now rewrite (lookup_existsb _ _ E).
  - intros k Hk. rewrite lookup_set_neq by auto.
    apply lookup_decoded_fields.
Qed.

(** When something that is merged into the properties is [null] or
    [undefined], [formValueToView] throws a [TypeError]. *)
Lemma formValueToView_throws :
  (exists k p, merged_property value base k = Some p
               /\ is_nullish p = true) ->
  formValueToView value views = Throw TypeError.
Proof.
  intros [k [p [Hm Hp]]]. rewrite formValueToView_unfolded.
  rewrite foldM_decode_range_throws; [reflexivity|].
  exists k, p. rewrite lookup_merged. split; [|split]; auto.
  apply (@lookup_Some_In merged k p). now rewrite lookup_merged.
Qed.

End Decoding.

Lemma In_lookup (o : Obj) (k : string) (p : JsVal) :
  NoDup (keys o) -> In (k, p) o -> lookup o k = Some p.
Proof.
  induction o as [|[k' x] r IH]; simpl; [tauto|].
  intros Hnd [E|Hin]; inversion Hnd as [|? ? Hnin Hnd']; subst.
  - injection E as -> ->. now rewrite String.eqb_refl.
  - destruct (String.eqb_spec k k') as [->|Hne]; [|now apply IH].
    exfalso. apply Hnin. apply (in_map fst) in Hin. exact Hin.
Qed.

Lemma lookup_In (o : Obj) (k : string) (p : JsVal) :
  lookup o k = Some p -> In (k, p) o.
Proof.
  induction o as [|[k' x] r IH]; simpl; [discriminate|].
  destruct (String.eqb_spec k k') as [->|Hne].
  - intros E. injection E as ->. now left.
  - intros E. right. now apply IH.
Qed.

(** Without a named view the result starts empty, so only the form value
    is merged into the properties. *)
Lemma merged_without_seed (value : Obj) (k : string) :
  merged_property value (spread (js_or (get [] "properties") (JObj []))) k
  = if is_form_key k then None else lookup value k.
Proof.
  unfold merged_property. cbn [get lookup js_or truthy spread].
  now destruct (if is_form_key k then None else lookup value k).
Qed.

(** X10. With no view named, [formValueToView] throws a [TypeError] as
    soon as the form value holds [null] or [undefined] under a key that is
    not reserved: such a property is not left out, it stops the
    conversion. *)
Theorem formValueToView_throws_on_nullish_property
        (value : Obj) (views : option (list View)) :
  NoDup (keys value) ->
  truthy (get value formViewNameKey) = false ->
  has_nullish_property value = true ->
  formValueToView value views = Throw TypeError.
Proof.
  intros Hnd Hv Hbad.
  apply (@formValueToView_throws value [] views Hnd).
  - now rewrite Hv.
  - apply existsb_exists in Hbad. destruct Hbad as [[k p] [Hin Hkp]].
    apply andb_true_iff in Hkp. destruct Hkp as [Hk Hp]. cbn [fst snd] in *.
    exists k, p. split; auto. rewrite merged_without_seed.
    apply negb_true_iff in Hk. rewrite Hk. now apply In_lookup.
Qed.

Lemma formValueToView_throws_on_nullish_property_witness :
  formValueToView [("_search", JStr ""); ("status", JNull)] None
  = Throw TypeError.
Proof.
  apply (formValueToView_throws_on_nullish_property
           [("_search", JStr ""); ("status", JNull)] None).
  - repeat constructor; simpl; intuition discriminate.
  - reflexivity.
  - reflexivity.
Defined.

(** X11. With no view named and no [null] or [undefined] under a key that
    is not reserved, [formValueToView] returns a view made as follows.
    Its [properties] hold the entries of the form value that are not under
    a reserved key, a [{_range: r}] entry with truthy [r] rewritten to
    [{min: r[0], max: r[1]}], and no reserved key.  Each field of
    [viewFormKeyMap] is present exactly when the form value holds a truthy
    value under its reserved key, and holds that value.  There is no other
    field. *)
Theorem formValueToView_without_view
        (value : Obj) (views : option (list View)) :
  NoDup (keys value) ->
  truthy (get value formViewNameKey) = false ->
  has_nullish_property value = false ->
  exists (d : View) (qs : Obj),
    formValueToView value views = Ok d
    /\ lookup d "properties" = Some (JObj qs)
    /\ (forall k, lookup qs k
                  = if is_form_key k then None
                    else option_map decode_value (lookup value k))
    /\ (forall f fk, In (f, fk) viewFormKeyMap ->
                     lookup d f = if truthy (get value fk)
                                  then Some (get value fk) else None)
    /\ (forall k, lookup d k <> None ->
                  k = "properties" \/ exists fk, In (k, fk) viewFormKeyMap).
Proof.
  intros Hnd Hv Hok.
  destruct (@formValueToView_returns value [] views Hnd)
    as [d [qs [Hd [Hp [Hqs Hf]]]]].
  - now rewrite Hv.
  - intros k p. rewrite merged_without_seed.
    destruct (is_form_key k) eqn:Ek; [discriminate|].
    intros Hl. apply is_nullish_not.
    destruct (is_nullish p) eqn:Ep; auto.
    assert (has_nullish_property value = true) as Hbad; [|congruence].
    apply existsb_exists. exists (k, p). split.
    + now apply lookup_In.
    + cbn [fst snd]. now rewrite Ek, Ep.
  - exists d, qs. split; [exact Hd|]. split; [exact Hp|]. split; [|split].
    + intros k. rewrite Hqs, merged_without_seed.
      now destruct (is_form_key k).
    + intros f fk Hin. rewrite Hf.
      * cbn in Hin.
        repeat (destruct Hin as [E|Hin]; [injection E as <- <-; reflexivity|]).
        destruct Hin.
      * intros ->. cbn in Hin. intuition discriminate.
    + intros k Hk.
      destruct (String.eqb_spec k "properties") as [->|Hne]; [now left|].
      right. rewrite (Hf k Hne) in Hk. unfold decoded_field in Hk.
      destruct (find (fun km => String.eqb k (fst km)) viewFormKeyMap)
        as [[f fk]|] eqn:Efind; [|now elim Hk].
      apply find_some in Efind. destruct Efind as [Hin Ek].
      cbn [fst] in Ek. apply String.eqb_eq in Ek. subst f.
      now exists fk.
Qed.

Lemma formValueToView_without_view_witness :
  exists (d : View) (qs : Obj),
    formValueToView
      [("_search", JStr ""); ("_page", JNum 2);
       ("age", JObj [("_range", JArr [JNum 20; JNum 30])])] None = Ok d
    /\ lookup d "properties" = Some (JObj qs)
    /\ lookup qs "age" = Some (JObj [("min", JNum 20); ("max", JNum 30)])
    /\ lookup d "page" = Some (JNum 2)
    /\ lookup d "search" = None.
Proof.
  destruct (formValueToView_without_view
              [("_search", JStr ""); ("_page", JNum 2);
               ("age", JObj [("_range", JArr [JNum 20; JNum 30])])] None)
    as [d [qs [Hd [Hp [Hqs [Hf _]]]]]].
  - repeat constructor; simpl; intuition discriminate.
  - reflexivity.
  - reflexivity.
  - exists d, qs. split; [exact Hd|]. split; [exact Hp|]. split; [|split].
    + rewrite Hqs. reflexivity.
    + rewrite (Hf "page" "_page"); [reflexivity | cbn; tauto].
    + rewrite (Hf "search" "_search"); [reflexivity | cbn; tauto].
Defined.

Lemma no_nullish_lookup (o : Obj) (k : string) (p : JsVal) :
  no_nullish o = true -> lookup o k = Some p -> not_nullish p.
Proof.
  intros H Hl. apply lookup_In in Hl.
  unfold no_nullish in H. rewrite forallb_forall in H.
  specialize (H _ Hl). cbn [snd] in H.
  apply negb_true_iff in H. now apply is_nullish_not.
Qed.

(** X12. When the form value names a view that [views] holds, and neither
    the form value nor the copied properties of that view hold [null] or
    [undefined]: [formValueToView] returns a view whose [view] field is the
    name, whose [name] is that of the copy of the view found, whose other
    fields are the truthy reserved entries of the form value and otherwise
    those of the copy, and whose properties are those of the copy
    overridden by the entries of the form value that are not reserved (each
    with its [{_range: r}] wrapper undone). *)
Theorem formValueToView_named_merge
        (value : Obj) (l : list View) (w : View) :
  NoDup (keys value) ->
  truthy (get value formViewNameKey) = true ->
  find (fun v => strict_eq (get v "name") (get value formViewNameKey)) l
  = Some w ->
  no_nullish value = true ->
  no_nullish (copied_properties w) = true ->
  exists (d : View) (qs : Obj),
    formValueToView value (Some l) = Ok d
    /\ lookup d "properties" = Some (JObj qs)
    /\ lookup d "view" = Some (get value formViewNameKey)
    /\ lookup d "name" = lookup (JSON_props w) "name"
    /\ (forall f fk, In (f, fk) viewFormKeyMap ->
                     lookup d f = if truthy (get value fk)
                                  then Some (get value fk)
                                  else lookup (JSON_props w) f)
    /\ (forall k, is_form_key k = false ->
                  lookup qs k
                  = option_map decode_value
                      (match lookup value k with
                       | Some x => Some x
                       | None => lookup (copied_properties w) k
                       end))
    /\ (forall k, is_form_key k = true ->
                  lookup qs k
                  = option_map decode_value (lookup (copied_properties w) k)).
Proof.
  intros Hnd Hv Hfind Hval Hbase.
  destruct (@formValueToView_returns value (JSON_props w) (Some l) Hnd)
    as [d [qs [Hd [Hp [Hqs Hf]]]]].
  - rewrite Hv. cbn [find_view bind]. now rewrite Hfind.
  - intros k p. unfold merged_property. fold (copied_properties w).
    destruct (is_form_key k).
    + apply (no_nullish_lookup _ _ Hbase).
    + destruct (lookup value k) as [x|] eqn:E.
      * intros Hx. injection Hx as <-. exact (no_nullish_lookup _ _ Hval E).
      * apply (no_nullish_lookup _ _ Hbase).
  - exists d, qs. split; [exact Hd|]. split; [exact Hp|].
    split; [|split; [|split; [|split]]].
    + rewrite Hf by discriminate. unfold decoded_field.
      cbn [find viewFormKeyMap fst snd String.eqb Ascii.eqb Bool.eqb].
      now rewrite Hv.
    + rewrite Hf by discriminate. reflexivity.
    + intros f fk Hin. rewrite Hf.
      * cbn in Hin.
        repeat (destruct Hin as [E|Hin]; [injection E as <- <-; reflexivity|]).
        destruct Hin.
      * intros ->. cbn in Hin. intuition discriminate.
    + intros k Hk. rewrite Hqs. unfold merged_property.
      fold (copied_properties w). now rewrite Hk.
    + intros k Hk. rewrite Hqs. unfold merged_property.
      fold (copied_properties w). now rewrite Hk.
Qed.

Lemma formValueToView_named_merge_witness :
  exists (d : View) (qs : Obj),
    formValueToView
      [("_search", JStr ""); ("_view", JStr "W"); ("status", JStr "closed")]
      (Some [[("name", JStr "W");
              ("properties",
               JObj [("status", JStr "open"); ("size", JStr "M")])]])
    = Ok d
    /\ lookup d "properties" = Some (JObj qs)
    /\ lookup d "view" = Some (JStr "W")
    /\ lookup qs "status" = Some (JStr "closed")
    /\ lookup qs "size" = Some (JStr "M").
Proof.
  destruct (@formValueToView_named_merge
              [("_search", JStr ""); ("_view", JStr "W");
               ("status", JStr "closed")]
              [[("name", JStr "W");
                ("properties",
                 JObj [("status", JStr "open"); ("size", JStr "M")])]]
              [("name", JStr "W");
               ("properties",
                JObj [("status", JStr "open"); ("size", JStr "M")])])
    as [d [qs [Hd [Hp [Hview [_ [_ [Hown _]]]]]]]].
  - repeat constructor; simpl; intuition discriminate.
  - reflexivity.
  - reflexivity.
  - reflexivity.
  - reflexivity.
  - exists d, qs. split; [exact Hd|]. split; [exact Hp|].
    split; [exact Hview|]. split.
    + rewrite (Hown "status" eq_refl). reflexivity.
    + rewrite (Hown "size" eq_refl). reflexivity.
Defined.

(* ================================================================= *)
(** ** The codec, from the form value and back *)

Lemma encode_decode_value (p : JsVal) :
  plain_property p \/ range_wrapper p ->
  encode_value (decode_value p) = p.
Proof.
  intros [[Hr [_ [_ Ht]]] | [a [b [-> Hab]]]].
  - unfold decode_value. rewrite Ht. unfold encode_value. now rewrite Hr.
  - cbn. unfold encode_value, is_range. cbn. now rewrite Hab.
Qed.

Lemma is_form_key_In (k : string) : is_form_key k = true <-> In k form_keys.
Proof.
  unfold is_form_key. rewrite existsb_exists. split.
  - intros [x [Hin E]]. apply String.eqb_eq in E. now subst.
  - intros Hin. exists k. split; auto. apply String.eqb_refl.
Qed.

(** A reserved entry of the form value, through the field of the view and
    back. *)
Lemma form_field_round_trip (value d : Obj) (f fk : string) :
  lookup d f = (if truthy (get value fk) then Some (get value fk) else None) ->
  absent_or_truthy value fk ->
  opt_rel js_equiv (if truthy (get d f) then Some (get d f) else None)
          (lookup value fk).
Proof.
  intros Hd Ha. unfold get at 1 2. rewrite Hd.
  destruct (truthy (get value fk)) eqn:Ht.
  - rewrite Ht, (truthy_get_lookup _ _ Ht). repeat constructor.
  - cbn. destruct Ha as [-> | Ha]; [constructor | congruence].
Qed.

(** X13. For a form value of a view without a name (see [wf_form]),
    encoding the view that [formValueToView] returns gives a form value
    structurally equal to the one started from: a view emitted by the form
    and handed back to it leaves the form value as it is. *)
Theorem encode_decode_round_trip
        (value : Obj) (views : option (list View)) :
  wf_form value ->
  exists d : View,
    formValueToView value views = Ok d
    /\ js_equiv (JObj (viewToFormValue (Some d))) (JObj value).
Proof.
  intros [Hnd Hnv [x [Hx Hxs]] Hfields Hvals].
  inversion Hfields as [|? ? Asort Hf1]; subst.
  inversion Hf1 as [|? ? Astep Hf2]; subst.
  inversion Hf2 as [|? ? Apage Hf3]; subst.
  inversion Hf3 as [|? ? Acols _]; subst.
  clear Hfields Hf1 Hf2 Hf3.
  assert (get value formViewNameKey = JUndefined) as Hgv
      by (unfold get; now rewrite Hnv).
  assert (get value formSearchKey = x) as Hgs
      by (unfold get; now rewrite Hx).
  assert (forall k p, is_form_key k = false -> lookup value k = Some p ->
                      plain_property p \/ range_wrapper p) as Hwf.
  { intros k p Hk Hl. apply lookup_In in Hl.
    rewrite Forall_forall in Hvals. specialize (Hvals _ Hl).
    cbn [fst snd] in Hvals. destruct Hvals as [E|H]; [congruence | exact H]. }
  destruct (@formValueToView_returns value [] views Hnd)
    as [d [qs [Hd [Hp [Hqs Hf]]]]].
  { now rewrite Hgv. }
  { intros k p. rewrite merged_without_seed.
    destruct (is_form_key k) eqn:Ek; [discriminate|].
    intros Hl. destruct (Hwf k p Ek Hl) as [[_ [Hn [Hu _]]] | [a [b [-> _]]]];
      split; auto; discriminate. }
  assert (forall k, lookup qs k = if is_form_key k then None
                                  else option_map decode_value (lookup value k))
    as Hqs'.
  { intros k. rewrite Hqs, merged_without_seed. now destruct (is_form_key k). }
  assert (Forall (fun k => ~ In k form_keys) (keys qs)) as Hres.
  { apply Forall_forall. intros k Hin Hfk.
    apply is_form_key_In in Hfk. revert Hin. apply lookup_None_iff.
    now rewrite Hqs', Hfk. }
  exists d. split; [exact Hd|].
  apply js_equiv_obj. intros k.
  rewrite (lookup_viewToFormValue d k Hp Hres).
  destruct (String.eqb_spec k formSearchKey) as [->|N1].
  { rewrite Hx. unfold get at 1 2. rewrite Hf by discriminate.
    unfold decoded_field.
    cbn [find viewFormKeyMap fst snd String.eqb Ascii.eqb Bool.eqb].
    rewrite Hgs. destruct (truthy x) eqn:Ht.
    - rewrite Ht. repeat constructor.
    - cbn. destruct Hxs as [-> | Hxs]; [repeat constructor | congruence]. }
  destruct (String.eqb_spec k formSortKey) as [->|N2].
  { apply form_field_round_trip; auto. now rewrite Hf by discriminate. }
  destruct (String.eqb_spec k formStepKey) as [->|N3].
  { apply form_field_round_trip; auto. now rewrite Hf by discriminate. }
  destruct (String.eqb_spec k formPageKey) as [->|N4].
  { apply form_field_round_trip; auto. now rewrite Hf by discriminate. }
  destruct (String.eqb_spec k formColumnsKey) as [->|N5].
  { apply form_field_round_trip; auto. now rewrite Hf by discriminate. }
  destruct (String.eqb_spec k formViewNameKey) as [->|N6].
  { unfold get at 1 2 3 4. rewrite !Hf by discriminate.
    unfold decoded_field.
    cbn [find viewFormKeyMap fst snd String.eqb Ascii.eqb Bool.eqb lookup].
    rewrite Hgv, Hnv. cbn. constructor. }
  assert (is_form_key k = false) as Hk.
  { unfold is_form_key. cbn [form_keys viewFormKeyMap map snd existsb].
    apply String.eqb_neq in N1, N2, N3, N4, N5, N6.
    now rewrite N1, N2, N3, N4, N5, N6. }
  rewrite Hqs', Hk.
  destruct (lookup value k) as [p|] eqn:El; cbn [option_map];
    [|constructor].
  rewrite (encode_decode_value (Hwf k p Hk El)). repeat constructor.
Qed.

Lemma encode_decode_round_trip_witness :
  exists d : View,
    formValueToView
      [("_search", JStr ""); ("_page", JNum 2);
       ("age", JObj [("_range", JArr [JNum 20; JNum 30])]);
       ("size", JStr "M")] None = Ok d
    /\ js_equiv (JObj (viewToFormValue (Some d)))
         (JObj [("_search", JStr ""); ("_page", JNum 2);
                ("age", JObj [("_range", JArr [JNum 20; JNum 30])]);
                ("size", JStr "M")]).
Proof.
  apply (@encode_decode_round_trip
           [("_search", JStr ""); ("_page", JNum 2);
            ("age", JObj [("_range", JArr [JNum 20; JNum 30])]);
            ("size", JStr "M")] None).
  constructor.
  - repeat constructor; simpl; intuition discriminate.
  - reflexivity.
  - eexists. split; [reflexivity | now left].
  - repeat constructor;
      first [ left; reflexivity | right; reflexivity ].
  - constructor; [now left|]. constructor; [now left|].
    constructor; [|constructor; [|constructor]].
    + right. right. eexists. eexists. split; reflexivity.
    + right. left. repeat split; discriminate.
Defined.

(* ================================================================= *)
(** ** Further properties of [transformTouched] *)

Lemma reported_transformTouched_In (touched value : Obj) (k : string) :
  In k (keys touched) -> k <> "__proto__" ->
  reported (transformTouched touched value) k = Some (touched_value value k).
Proof.
  intros H Hp. rewrite reported_transformTouched.
  assert (existsb (String.eqb k) (keys touched) = true) as ->.
  { apply existsb_exists. exists k. split; auto. apply String.eqb_refl. }
  apply String.eqb_neq in Hp. now rewrite Hp.
Qed.

Lemma dotted_is_not_proto (p s : string) : p ++ String "." s <> "__proto__".
Proof.
  assert (In "."%char (list_ascii_of_string (p ++ String "." s))) as H.
  { induction p as [|c r IH]; simpl; auto. }
  intros E. rewrite E in H. cbn in H. intuition discriminate.
Qed.

Lemma split_dot_dot_free (s : string) : dot_free s -> split_dot s = [s].
Proof.
  unfold dot_free. induction s as [|c r IH]; simpl; auto.
  intros H. destruct (Ascii.eqb_spec c "."%char) as [->|Hne].
  - exfalso. apply H. now left.
  - rewrite IH; auto.
Qed.

Lemma split_dot_app (p s : string) :
  dot_free p -> split_dot (p ++ String "." s) = p :: split_dot s.
Proof.
  unfold dot_free. induction p as [|c r IH]; simpl; auto.
  intros H. destruct (Ascii.eqb_spec c "."%char) as [->|Hne].
  - exfalso. apply H. now left.
  - rewrite IH; auto.
Qed.

Lemma dot_free_range : dot_free formRangeKey.
Proof. unfold dot_free. cbn. intuition discriminate. Qed.

(** X14. For a property name [p] without a dot: the touched path
    [p._range], and any path that goes on below it ([p._range.0]), is
    reported with what reading [value] under [p] gives; the touched path
    [p] itself, unless it is [__proto__], is reported with what reading
    [value] under [p] gives.  That is the own property of [value], else the
    member of that name inherited from [Object.prototype], else
    [undefined]. *)
Theorem transformTouched_range_paths (touched value : Obj) (p : string) :
  dot_free p ->
  (In (p ++ "._range") (keys touched) ->
   reported (transformTouched touched value) (p ++ "._range")
   = Some (read value p))
  /\ (forall tail,
         In (p ++ "._range." ++ tail) (keys touched) ->
         reported (transformTouched touched value) (p ++ "._range." ++ tail)
         = Some (read value p))
  /\ (In p (keys touched) -> p <> "__proto__" ->
      reported (transformTouched touched value) p = Some (read value p))
  /\ (forall v, lookup value p = Some v -> read value p = Value v)
  /\ (lookup value p = None ->
      read value p = if is_inherited p then Inherited p
                     else Value JUndefined).
Proof.
  intros Hp. split; [|split; [|split; [|split]]].
  - intros Hin.
    rewrite (@reported_transformTouched_In _ value _ Hin)
      by apply (dotted_is_not_proto p "_range").
    unfold touched_value.
    change (p ++ "._range") with (p ++ String "." formRangeKey).
    rewrite (split_dot_app _ Hp), (split_dot_dot_free dot_free_range).
    reflexivity.
  - intros tail Hin.
    rewrite (@reported_transformTouched_In _ value _ Hin)
      by apply (dotted_is_not_proto p ("_range." ++ tail)).
    unfold touched_value.
    change (p ++ "._range." ++ tail)
      with (p ++ String "." (formRangeKey ++ String "." tail)).
    rewrite (split_dot_app _ Hp), (split_dot_app _ dot_free_range).
    reflexivity.
  - intros Hin Hnp. rewrite (@reported_transformTouched_In _ value _ Hin Hnp).
    unfold touched_value. rewrite (split_dot_dot_free Hp). reflexivity.
  - intros v Hl. unfold read. now rewrite Hl.
  - intros Hl. unfold read. now rewrite Hl.
Qed.

Lemma transformTouched_range_paths_witness :
  reported (transformTouched
              [("age._range.0", JBool true)]
              [("age", JObj [("_range", JArr [JNum 20; JNum 30])])])
           "age._range.0"
  = Some (Value (JObj [("_range", JArr [JNum 20; JNum 30])]))
  /\ reported (transformTouched
                 [("constructor._range", JBool true)]
                 [("age", JObj [("_range", JArr [JNum 20; JNum 30])])])
              "constructor._range"
     = Some (Inherited "constructor").
Proof.
  split.
  - destruct (@transformTouched_range_paths
                [("age._range.0", JBool true)]
                [("age", JObj [("_range", JArr [JNum 20; JNum 30])])]
                "age") as [_ [H _]].
    + unfold dot_free. cbn. intuition discriminate.
    + apply (H "0"). cbn. now left.
  - destruct (@transformTouched_range_paths
                [("constructor._range", JBool true)]
                [("age", JObj [("_range", JArr [JNum 20; JNum 30])])]
                "constructor") as [H _].
    + unfold dot_free. cbn. intuition discriminate.
    + apply H. cbn. now left.
Defined.

(* ================================================================= *)
(** ** Further properties of the component *)

Lemma NoDup_keys_delete (o : Obj) (k : string) :
  NoDup (keys o) -> NoDup (keys (delete o k)).
Proof. intros H. rewrite keys_delete. now apply NoDup_filter. Qed.

Lemma NoDup_keys_clearEmpty (o : Obj) :
  NoDup (keys o) -> NoDup (keys (clearEmpty o)).
Proof.
  unfold clearEmpty. generalize (keys o) at 2. intros ks. revert o.
  induction ks as [|k0 ks IH]; intros o H; simpl; auto.
  apply IH. unfold clear_key.
  destruct (is_empty_array (get o k0)); auto. now apply NoDup_keys_delete.
Qed.

Lemma normalizeValue_without_view (value prev : Obj)
      (views : option (list View)) :
  truthy (get value formViewNameKey) = false ->
  normalizeValue value prev views = Ok (clearEmpty value).
Proof.
  intros Ht. unfold normalizeValue. rewrite Ht. cbn [andb].
  now rewrite get_clearEmpty, (falsy_not_empty_array _ Ht), Ht.
Qed.

Section ComponentTraces.

Variable StringToNumber : string -> option Z.

Lemma step_views (ps : Props * State) (e : Event) :
  views (fst (step StringToNumber ps e)) = views (fst ps).
Proof. destruct ps as [p s]. destruct e; reflexivity. Qed.

Lemma step_dirty (p : Props) (s : State) (l : list View) (e : Event) :
  views p = Some l ->
  dirty (snd (step StringToNumber (p, s) e))
  = dirty_after [e] (dirty s).
Proof.
  intros Hv. destruct e as [value touched | value touched | | v]; cbn.
  - destruct (normalizeValue_returns value (formValue s) l) as [r Hr].
    rewrite <- Hv in Hr. now rewrite (onChange_state _ p s value touched Hr).
  - destruct (normalizeValue_returns value (formValue s) l) as [r Hr].
    rewrite <- Hv in Hr. now rewrite (onSubmit_state _ p s value touched Hr).
  - reflexivity.
  - reflexivity.
Qed.

(** X15. With a collection of views at hand, after any sequence of change,
    submit, reset and new-view events the state is dirty exactly when the
    last event that was not a new view is a change (and as it was before
    the sequence when there is no such event): a new view never changes the
    flag that hides the reset button. *)
Theorem dirty_follows_last_edit
        (trace : list Event) (p : Props) (s : State) (l : list View) :
  views p = Some l ->
  dirty (snd (run StringToNumber trace (p, s)))
  = dirty_after trace (dirty s).
Proof.
  revert p s. induction trace as [|e trace IH]; intros p s Hv; auto.
  pose proof (step_dirty p s e Hv) as Hd.
  pose proof (step_views (p, s) e) as Hviews. cbn [fst] in Hviews.
  unfold run, dirty_after in *. cbn [fold_left] in *.
  destruct (step StringToNumber (p, s) e) as [p' s'] eqn:Es.
  cbn [fst snd] in *. rewrite (IH p' s'); [|congruence].
  now rewrite Hd.
Qed.

(** X16. With a collection of views at hand, when the form value held by
    the component has a [_page] greater than 1, the value that [onChange]
    or [onSubmit] commits has [_page] 1, whatever the event's value is:
    also when the event only moves to another page, or switches the
    view. *)
Theorem edits_commit_first_page
        (p : Props) (s : State) (l : list View) (value touched : Obj)
        (n : Z) :
  views p = Some l ->
  get (formValue s) formPageKey = JNum n -> 1 < n ->
  lookup (formValue (state (onChange StringToNumber p s value touched)))
         formPageKey = Some (JNum 1)
  /\ lookup (formValue (state (onSubmit StringToNumber p s value touched)))
            formPageKey = Some (JNum 1).
Proof.
  intros Hv Hn Hlt.
  destruct (normalizeValue_returns value (formValue s) l) as [r Hr].
  rewrite <- Hv in Hr.
  rewrite (onChange_state _ p s value touched Hr).
  rewrite (onSubmit_state _ p s value touched Hr).
  cbn [formValue]. rewrite (resetPage_number _ _ _ Hn).
  apply Z.ltb_lt in Hlt. rewrite Hlt.
  split; apply lookup_set_eq.
Qed.

(** X17. Submitting a form value that names no view and holds [null] or
    [undefined] under a key that is not reserved: [onSubmit] commits the
    normalised value and clears the dirty flag, and then throws a
    [TypeError] out of [formValueToView]; [onView] and [onDone] are not
    called. *)
Theorem submit_with_nullish_property
        (p : Props) (s : State) (value touched : Obj)
        (k : string) (x : JsVal) :
  NoDup (keys value) ->
  truthy (get value formViewNameKey) = false ->
  is_form_key k = false ->
  lookup value k = Some x ->
  is_nullish x = true ->
  thrown (onSubmit StringToNumber p s value touched) = Some TypeError
  /\ state (onSubmit StringToNumber p s value touched)
     = {| formValue := resetPage StringToNumber (clearEmpty value)
                                 (formValue s);
          changed := JBool false |}
  /\ (forall c, In c (calls (onSubmit StringToNumber p s value touched)) ->
                exists t, c = CallOnTouched t).
Proof.
  intros Hnd Hv Hk Hl Hx.
  assert (k <> formPageKey /\ formViewNameKey <> formPageKey) as [Hkp Hvp].
  { split; [|discriminate]. intros ->. discriminate Hk. }
  assert (formValueToView
            (resetPage StringToNumber (clearEmpty value) (formValue s))
            (views p) = Throw TypeError) as Hthrow.
  { apply (@formValueToView_throws _ []).
    - unfold resetPage.
      destruct (truthy (get (formValue s) formPageKey) && _);
        [apply NoDup_keys_set|]; now apply NoDup_keys_clearEmpty.
    - unfold get at 1. rewrite lookup_resetPage_other by auto.
      fold (get (clearEmpty value) formViewNameKey).
      now rewrite get_clearEmpty, (falsy_not_empty_array _ Hv), Hv.
    - exists k, x. split; auto. rewrite merged_without_seed, Hk.
      rewrite lookup_resetPage_other by auto.
      rewrite lookup_clearEmpty, Hl. destruct x; try discriminate; auto. }
  unfold onSubmit. rewrite (normalizeValue_without_view _ _ _ Hv), Hthrow.
  cbn [thrown state calls]. split; [reflexivity|]. split; [reflexivity|].
  intros c. destruct (onTouched p); cbn; [|tauto].
  intros [<-|[]]. eauto.
Qed.

End ComponentTraces.

Lemma dirty_follows_last_edit_witness :
  dirty (snd (run (fun _ => None)
                [EvChange [("status", JStr "closed")] [];
                 EvView (Some [("properties", JObj [])])]
                (props_A, mount props_A)))
  = true.
Proof.
  apply (@dirty_follows_last_edit (fun _ => None)
           [EvChange [("status", JStr "closed")] [];
            EvView (Some [("properties", JObj [])])]
           props_A (mount props_A) [view_A]).
  reflexivity.
Defined.

Lemma edits_commit_first_page_witness :
  lookup (formValue
            (state (onChange (fun _ => None) props_A
                      {| formValue := [("_search", JStr ""); ("_page", JNum 2)];
                         changed := JUndefined |}
                      [("_search", JStr ""); ("_page", JNum 3)]
                      [("_page", JBool true)])))
         formPageKey
  = Some (JNum 1).
Proof.
  apply (@edits_commit_first_page (fun _ => None) props_A
           {| formValue := [("_search", JStr ""); ("_page", JNum 2)];
              changed := JUndefined |}
           [view_A]
           [("_search", JStr ""); ("_page", JNum 3)]
           [("_page", JBool true)] 2);
    [reflexivity | reflexivity | lia].
Defined.

Lemma submit_with_nullish_property_witness :
  thrown (onSubmit (fun _ => None) props_A (mount props_A)
            [("_search", JStr ""); ("status", JUndefined)]
            [("status", JBool true)])
  = Some TypeError.
Proof.
  apply (@submit_with_nullish_property (fun _ => None) props_A
           (mount props_A)
           [("_search", JStr ""); ("status", JUndefined)]
           [("status", JBool true)] "status" JUndefined).
  - repeat constructor; simpl; intuition discriminate.
  - reflexivity.
  - reflexivity.
  - reflexivity.
  - reflexivity.
Defined.

Section Propagation.

Variable StringToNumber : string -> option Z.

Lemma touched_call_is_no_view (b : bool) (t : Reported) (v : View) :
  ~ In (CallOnView v) (if b then [CallOnTouched t] else []).
Proof. destruct b; cbn; intuition discriminate. Qed.

(** X18. With a collection of views at hand: when [updateOn] is not
    "change", [onChange] calls no callback and does not throw; and every
    view that [onChange] or [onSubmit] hands to [onView] is the decoding of
    the form value that the same call has committed. *)
Theorem emitted_view_is_committed_value
        (p : Props) (s : State) (l : list View) (value touched : Obj) :
  views p = Some l ->
  (updateOn p <> "change" ->
   calls (onChange StringToNumber p s value touched) = []
   /\ thrown (onChange StringToNumber p s value touched) = None)
  /\ (forall v,
         In (CallOnView v) (calls (onChange StringToNumber p s value touched))
         -> formValueToView
              (formValue (state (onChange StringToNumber p s value touched)))
              (views p) = Ok v)
  /\ (forall v,
         In (CallOnView v) (calls (onSubmit StringToNumber p s value touched))
         -> formValueToView
              (formValue (state (onSubmit StringToNumber p s value touched)))
              (views p) = Ok v).
Proof.
  intros Hv.
  destruct (normalizeValue_returns value (formValue s) l) as [r Hr].
  rewrite <- Hv in Hr.
  split; [|split].
  - intros Hmode. unfold onChange. rewrite Hr.
    apply String.eqb_neq in Hmode. now rewrite Hmode.
  - intros v. unfold onChange. rewrite Hr.
    destruct (String.eqb (updateOn p) "change"); [|intros []].
    destruct (formValueToView (resetPage StringToNumber r (formValue s))
                              (views p)) as [v0|e] eqn:Ed;
      cbn [calls state formValue].
    + intros Hin. apply in_app_or in Hin. destruct Hin as [Hin|Hin].
      * now apply touched_call_is_no_view in Hin.
      * destruct Hin as [E|[]]. injection E as <-. exact Ed.
    + intros Hin. now apply touched_call_is_no_view in Hin.
  - intros v. unfold onSubmit. rewrite Hr.
    destruct (formValueToView (resetPage StringToNumber r (formValue s))
                              (views p)) as [v0|e] eqn:Ed;
      cbn [calls state formValue].
    + intros Hin. apply in_app_or in Hin. destruct Hin as [Hin|Hin].
      * now apply touched_call_is_no_view in Hin.
      * apply in_app_or in Hin. destruct Hin as [[E|[]]|Hin].
        -- injection E as <-. exact Ed.
        -- destruct (onDone p); cbn in Hin; intuition discriminate.
    + intros Hin. now apply touched_call_is_no_view in Hin.
Qed.

End Propagation.

Lemma emitted_view_is_committed_value_witness :
  calls (onChange (fun _ => None) props_A (mount props_A)
           [("_search", JStr ""); ("status", JStr "closed")]
           [("status", JBool true)])
  = []
  /\ thrown (onChange (fun _ => None) props_A (mount props_A)
               [("_search", JStr ""); ("status", JStr "closed")]
               [("status", JBool true)])
     = None.
Proof.
  apply (@emitted_view_is_committed_value (fun _ => None) props_A
           (mount props_A) [view_A]
           [("_search", JStr ""); ("status", JStr "closed")]
           [("status", JBool true)] eq_refl).
  discriminate.
Defined.
